(** * Vanish e-mail API client: a shallow embedding of [vanish.py]

    The client is a thin request/response mapping layer over [urllib].
    Python [str] values are represented by [string], read as the UTF-8
    bytes of the text (what [urllib.parse.quote] works on after
    [string.encode('utf-8')]); JSON documents and the Python objects
    [json.loads] turns them into are values of [pyval]; exceptions are
    values of [exn]; the network and the clock are an explicit world. *)

From Stdlib Require Import ZArith List String Ascii Bool Lia DecimalString.
Import ListNotations.
Open Scope string_scope.
Open Scope Z_scope.

(** ** Python values *)

(** A Python [float]: a finite binary64 is the dyadic number [m * 2^e]. *)
Inductive pyfloat : Type :=
| FNan
| FInf (negative : bool)
| FFinite (m e : Z).

(** What [json.loads] produces; [PNone] is Python's [None] (JSON null). *)
#[warnings="-register-all"]
Inductive pyval : Type :=
| PNone
| PBool (b : bool)
| PInt (z : Z)
| PFloat (f : pyfloat)
| PStr (s : string)
| PList (l : list pyval)
| PDict (d : list (string * pyval)).

(** The exceptions the client's code can raise or let through.
    [VanishError] is the library's own; its message is whatever the
    code passes to the constructor. *)
Inductive exn : Type :=
| VanishError (message : pyval) (status_code : option Z)
| KeyError (key : string)
| TypeError
| AttributeError
| ValueError
| JSONDecodeError
| UnicodeDecodeError
| TimeoutError
| ConnectionResetError
| RemoteDisconnected
| InvalidURL.

Inductive result (A : Type) : Type :=
| Ok (a : A)
| Raise (e : exn).
Arguments Ok {A} a.
Arguments Raise {A} e.

Definition rbind {A B} (r : result A) (k : A -> result B) : result B :=
  match r with
  | Ok a => k a
  | Raise e => Raise e
  end.

Declare Scope result_scope.
Delimit Scope result_scope with result.
Notation "'let?' x ':=' r 'in' k" := (rbind r (fun x => k))
  (at level 10, x name, r at level 100, k at level 200) : result_scope.
Notation "'let?' ' p ':=' r 'in' k" := (rbind r (fun x => match x with p => k end))
  (at level 10, p pattern, r at level 100, k at level 200) : result_scope.
Open Scope result_scope.

(** ** Strings *)

Definition str_of_int (z : Z) : string := NilZero.string_of_int (Z.to_int z).

Definition char_in (c : ascii) (s : string) : bool :=
  existsb (Ascii.eqb c) (list_ascii_of_string s).

(** [s.rstrip(chars)] *)
Fixpoint rstrip (chars : string) (s : string) : string :=
  match s with
  | EmptyString => EmptyString
  | String c rest =>
      match rstrip chars rest with
      | EmptyString => if char_in c chars then EmptyString else String c EmptyString
      | rest' => String c rest'
      end
  end.

(** [s.replace(old, new)] for a one-character [old]: every occurrence. *)
Fixpoint replace (old : ascii) (new : string) (s : string) : string :=
  match s with
  | EmptyString => EmptyString
  | String c rest =>
      if Ascii.eqb c old then new ++ replace old new rest
      else String c (replace old new rest)
  end.

(** [s[:n]] and [s[n:]] for a non-negative [n]. *)
Fixpoint take (n : nat) (s : string) : string :=
  match n, s with
  | S n', String c rest => String c (take n' rest)
  | _, _ => EmptyString
  end.

Fixpoint drop (n : nat) (s : string) : string :=
  match n, s with
  | S n', String _ rest => drop n' rest
  | _, _ => s
  end.

(** [lo <= c <= hi] on character codes. *)
Definition between (lo hi c : ascii) : bool :=
  ((nat_of_ascii lo <=? nat_of_ascii c) && (nat_of_ascii c <=? nat_of_ascii hi))%nat.

Definition is_digit (c : ascii) : bool := between "0" "9" c.
Definition is_upper (c : ascii) : bool := between "A" "Z" c.
Definition is_lower (c : ascii) : bool := between "a" "z" c.

(** ** urllib.parse *)

(** [_ALWAYS_SAFE]: letters, digits and [_.-~]. *)
Definition always_safe (c : ascii) : bool :=
  is_upper c || is_lower c || is_digit c || char_in c "_.-~".

(** One upper-case hexadecimal digit, as ['{:X}'.format]. *)
Definition hex_digit (n : nat) : ascii :=
  if (n <? 10)%nat then ascii_of_nat (48 + n) else ascii_of_nat (55 + n).

(** ['%{:02X}'.format(b)] *)
Definition percent_byte (b : ascii) : string :=
  String "%" (String (hex_digit (nat_of_ascii b / 16))
             (String (hex_digit (nat_of_ascii b mod 16)) EmptyString)).

(** [quote(s, safe="")]: every byte outside [_ALWAYS_SAFE] is escaped. *)
Fixpoint quote (s : string) : string :=
  match s with
  | EmptyString => EmptyString
  | String c rest =>
      (if always_safe c then String c EmptyString else percent_byte c) ++ quote rest
  end.

(** [quote_plus(s, safe="")]: as [quote], a space becoming [+]. *)
Fixpoint quote_plus (s : string) : string :=
  match s with
  | EmptyString => EmptyString
  | String c rest =>
      (if Ascii.eqb c " " then "+"
       else if always_safe c then String c EmptyString
       else percent_byte c) ++ quote_plus rest
  end.

(** The value of a hexadecimal digit of either case. *)
Definition unhex (c : ascii) : option nat :=
  if is_digit c then Some (nat_of_ascii c - 48)%nat
  else if between "A" "F" c then Some (nat_of_ascii c - 55)%nat
  else if between "a" "f" c then Some (nat_of_ascii c - 87)%nat
  else None.

(** Percent-decoding, as [unquote_to_bytes]: [%XX] with two hexadecimal
    digits is one byte, any other [%] stays as it is. *)
Fixpoint unquote (s : string) : string :=
  match s with
  | EmptyString => EmptyString
  | String c rest =>
      if Ascii.eqb c "%" then
        match rest with
        | String h1 (String h2 rest') =>
            match unhex h1, unhex h2 with
            | Some a, Some b => String (ascii_of_nat (16 * a + b)) (unquote rest')
            | _, _ => String c (unquote rest)
            end
        | _ => String c (unquote rest)
        end
      else String c (unquote rest)
  end.

(** The characters RFC 3986 reserves as delimiters (gen-delims and
    sub-delims), which a path segment must not carry unescaped. *)
Definition reserved (c : ascii) : bool := char_in c ":/?#[]@!$&'()*+,;=".

(** A query value: the ints and strings the client passes. *)
Inductive qval : Type :=
| QInt (z : Z)
| QStr (s : string).

Definition str_of_qval (v : qval) : string :=
  match v with
  | QInt z => str_of_int z
  | QStr s => s
  end.

Fixpoint join (sep : string) (l : list string) : string :=
  match l with
  | [] => EmptyString
  | [x] => x
  | x :: rest => x ++ sep ++ join sep rest
  end.

(** [urlencode(items)]: [quote_plus(str(k)) + '=' + quote_plus(str(v))]
    joined by [&]. *)
Definition urlencode (items : list (string * qval)) : string :=
  join "&" (map (fun kv => quote_plus (fst kv) ++ "=" ++ quote_plus (str_of_qval (snd kv))) items).

(** ** Python operations on decoded JSON *)

Fixpoint lookup (key : string) (d : list (string * pyval)) : option pyval :=
  match d with
  | [] => None
  | (k, v) :: rest => if String.eqb k key then Some v else lookup key rest
  end.

(** [v[key]] for a string key. *)
Definition getitem (v : pyval) (key : string) : result pyval :=
  match v with
  | PDict d =>
      match lookup key d with
      | Some x => Ok x
      | None => Raise (KeyError key)
      end
  | _ => Raise TypeError
  end.

(** [v.get(key, default)]; only a dict has the method. *)
Definition get (v : pyval) (key : string) (default : pyval) : result pyval :=
  match v with
  | PDict d =>
      match lookup key d with
      | Some x => Ok x
      | None => Ok default
      end
  | _ => Raise AttributeError
  end.

(** [for e in v]: a list gives its items, a dict its keys, a string its
    characters; nothing else is iterable. *)
Definition iter (v : pyval) : result (list pyval) :=
  match v with
  | PList l => Ok l
  | PDict d => Ok (map (fun kv => PStr (fst kv)) d)
  | PStr s => Ok (map (fun c => PStr (String c EmptyString)) (list_ascii_of_string s))
  | _ => Raise TypeError
  end.

(** [v.replace("Z", "+00:00")]; only a string has the method. *)
Definition replace_Z (v : pyval) : result string :=
  match v with
  | PStr s => Ok (replace "Z" "+00:00" s)
  | _ => Raise AttributeError
  end.

(** [f > n] for a float [f] and an int [n], compared exactly. *)
Definition float_gt (f : pyfloat) (n : Z) : bool :=
  match f with
  | FNan => false
  | FInf negative => negb negative
  | FFinite m e => if 0 <=? e then n <? m * 2 ^ e else n * 2 ^ (- e) <? m
  end.

(** [v > n] for an int [n]; a bool counts as 0 or 1, and a value that
    is not a number cannot be ordered against an int. *)
Definition gt (v : pyval) (n : Z) : result bool :=
  match v with
  | PInt z => Ok (n <? z)
  | PBool b => Ok (n <? (if b then 1 else 0))
  | PFloat f => Ok (float_gt f n)
  | _ => Raise TypeError
  end.

(** The list comprehension [[f(e) for e in l]], left to right. *)
Fixpoint comprehension {A} (f : pyval -> result A) (l : list pyval) : result (list A) :=
  match l with
  | [] => Ok []
  | e :: rest =>
      let? x := f e in
      let? xs := comprehension f rest in
      Ok (x :: xs)
  end.

(** ** datetime *)

(** A [datetime]; [tzinfo] is [None] for a naive value and otherwise the
    fixed offset from UTC, in microseconds ([timezone.utc] is offset 0). *)
Record datetime : Type := mk_datetime {
  year : Z;
  month : Z;
  day : Z;
  hour : Z;
  minute : Z;
  second : Z;
  microsecond : Z;
  tzinfo : option Z
}.

Definition utc : option Z := Some 0.

Definition is_leap (y : Z) : bool :=
  (y mod 4 =? 0) && (negb (y mod 100 =? 0) || (y mod 400 =? 0)).

Definition days_in_month (y m : Z) : Z :=
  if m =? 2 then (if is_leap y then 29 else 28)
  else if (m =? 4) || (m =? 6) || (m =? 9) || (m =? 11) then 30
  else 31.

(** The value of a digit character. *)
Definition digit_value (c : ascii) : Z := Z.of_nat (nat_of_ascii c) - 48.

(** *** Calendar arithmetic *)

(** Days are counted from 0001-01-01, which is day 1. *)
Definition days_before_year (y : Z) : Z :=
  (y - 1) * 365 + (y - 1) / 4 - (y - 1) / 100 + (y - 1) / 400.

Definition days_before_month (leap : bool) (m : Z) : Z :=
  nth (Z.to_nat m) [0; 0; 31; 59; 90; 120; 151; 181; 212; 243; 273; 304; 334] 0
  + (if (2 <? m) && leap then 1 else 0).

Definition ymd_to_ord (y m d : Z) : Z :=
  days_before_year y + days_before_month (is_leap y) m + d.

(** [weekday]: 0 for Monday. *)
Definition weekday (y m d : Z) : Z := (ymd_to_ord y m d + 6) mod 7.

(** The ordinal of the Monday of ISO week 1 of year [y]. *)
Definition iso_week1_monday (y : Z) : Z :=
  let first_day := ymd_to_ord y 1 1 in
  let first_weekday := (first_day + 6) mod 7 in
  first_day - first_weekday + (if 3 <? first_weekday then 7 else 0).

Definition ord_to_ymd (ordinal : Z) : Z * Z * Z :=
  let n := ordinal - 1 in
  let n400 := n / 146097 in
  let n := n mod 146097 in
  let n100 := n / 36524 in
  let n := n mod 36524 in
  let n4 := n / 1461 in
  let n := n mod 1461 in
  let n1 := n / 365 in
  let n := n mod 365 in
  let year := n400 * 400 + 1 + n100 * 100 + n4 * 4 + n1 in
  if (n1 =? 4) || (n100 =? 4) then (year - 1, 12, 31)
  else
    let leapyear := (n1 =? 3) && (negb (n4 =? 24) || (n100 =? 3)) in
    let month := (n + 50) / 32 in
    let preceding := days_before_month leapyear month in
    if n <? preceding then
      let month := month - 1 in
      let preceding :=
        preceding - (if (month =? 2) && leapyear then 29 else days_in_month 1 month) in
      (year, month, n - preceding + 1)
    else (year, month, n - preceding + 1).

(** ISO year, week and weekday to year, month and day. *)
Definition iso_to_ymd (iso_year iso_week iso_day : Z) : result (Z * Z * Z) :=
  let first_weekday := weekday iso_year 1 1 in
  if ((0 <? iso_week) && (iso_week <? 53))
     || ((iso_week =? 53)
         && ((first_weekday =? 3) || ((first_weekday =? 2) && is_leap iso_year)))
  then
    if (0 <? iso_day) && (iso_day <? 8) then
      Ok (ord_to_ymd (iso_week1_monday iso_year + (iso_week - 1) * 7 + iso_day - 1))
    else Raise ValueError
  else Raise ValueError.

(** *** Reading digits *)

(** The parser works on the UTF-8 bytes of the string, as a C string:
    past the end comes the terminating NUL. *)
Definition nul : ascii := "000"%char.

Definition char_at (i : nat) (s : string) : ascii :=
  match String.get i s with
  | Some c => c
  | None => nul
  end.

(** [parse_digits]: exactly [k] decimal digits, with what follows them. *)
Fixpoint parse_digits (k : nat) (acc : Z) (s : string) : option (Z * string) :=
  match k with
  | O => Some (acc, s)
  | S k' =>
      match s with
      | String c rest =>
          if is_digit c then parse_digits k' (10 * acc + digit_value c) rest else None
      | EmptyString => None
      end
  end.

Fixpoint count_digits (s : string) : nat :=
  match s with
  | String c rest => if is_digit c then S (count_digits rest) else O
  | EmptyString => O
  end.

Fixpoint skip_digits (s : string) : string :=
  match s with
  | String c rest => if is_digit c then skip_digits rest else s
  | EmptyString => EmptyString
  end.

(** *** The date *)

(** Where the date ends: [YYYY-MM-DD] (10), [YYYYMMDD] (8), [YYYY-Www]
    (8), [YYYYWww] (7), [YYYY-Www-D] (10), [YYYYWwwD] (8); [None] when
    the string cannot be a date.  The string has at least 7 bytes. *)
Definition _find_isoformat_datetime_separator (dtstr : string) : option nat :=
  let len := String.length dtstr in
  if (len =? 7)%nat then Some 7%nat
  else if Ascii.eqb (char_at 4 dtstr) "-" then
    if Ascii.eqb (char_at 5 dtstr) "W" then
      if (len <? 8)%nat then None
      else if (8 <? len)%nat && Ascii.eqb (char_at 8 dtstr) "-" then
        if (len =? 9)%nat then None
        else if (10 <? len)%nat && is_digit (char_at 10 dtstr) then Some 8%nat
        else Some 10%nat
      else Some 8%nat
    else Some 10%nat
  else if Ascii.eqb (char_at 4 dtstr) "W" then
    let idx := (7 + count_digits (drop 7 dtstr))%nat in
    if (idx <? 9)%nat then Some idx
    else if Nat.even idx then Some 7%nat
    else Some 8%nat
  else Some 8%nat.

(** The date, read from the start of the string; [len] is where it
    ends.  A calendar date is four digits, two and two, with hyphens
    between them or without; a week date has [W], two digits and
    perhaps one more for the day. *)
Definition _parse_isoformat_date (dtstr : string) (len : nat) : result (Z * Z * Z) :=
  match parse_digits 4 0 dtstr with
  | None => Raise ValueError
  | Some (year, p) =>
      let uses_separator := Ascii.eqb (char_at 0 p) "-" in
      let p := if uses_separator then drop 1 p else p in
      if Ascii.eqb (char_at 0 p) "W" then
        match parse_digits 2 0 (drop 1 p) with
        | None => Raise ValueError
        | Some (iso_week, p) =>
            let? iso_day :=
              if ((if uses_separator then 8 else 7) <? len)%nat then
                if uses_separator && negb (Ascii.eqb (char_at 0 p) "-") then Raise ValueError
                else match parse_digits 1 0 (if uses_separator then drop 1 p else p) with
                     | None => Raise ValueError
                     | Some (d, _) => Ok d
                     end
              else Ok 1 in
            iso_to_ymd year iso_week iso_day
        end
      else
        match parse_digits 2 0 p with
        | None => Raise ValueError
        | Some (month, p) =>
            if uses_separator && negb (Ascii.eqb (char_at 0 p) "-") then Raise ValueError
            else match parse_digits 2 0 (if uses_separator then drop 1 p else p) with
                 | None => Raise ValueError
                 | Some (day, _) => Ok (year, month, day)
                 end
        end
  end.

(** *** The time *)

(** How the reading of hours, minutes and seconds ends: at the end of
    the text, [trailing] telling whether the last byte looked at was
    something other than NUL, or before a fraction. *)
Inductive hms_end : Type :=
| Ended (trailing : bool)
| Fraction_next (rest : string).

(** [HH[:MM[:SS]]] or [HH[MM[SS]]]: up to [comps] fields of two digits.
    [next] is the byte that follows [tstr] in memory: the sign of the
    offset, or NUL.  Whether the fields are separated by colons is
    decided after the first one. *)
Fixpoint _parse_hh_mm_ss (comps : nat) (has_separator : option bool) (tstr : string)
    (next : ascii) : result (list Z * hms_end) :=
  match comps with
  | O => Ok ([], Fraction_next tstr)
  | S comps' =>
      match parse_digits 2 0 tstr with
      | None => Raise ValueError
      | Some (v, rest) =>
          let c := match rest with String c _ => c | EmptyString => next end in
          let has_sep := match has_separator with
                         | Some b => b
                         | None => Ascii.eqb c ":"
                         end in
          match rest with
          | EmptyString | String _ EmptyString => Ok ([v], Ended (negb (Ascii.eqb c nul)))
          | String _ rest' =>
              if has_sep && Ascii.eqb c ":" then
                let? '(vs, e) := _parse_hh_mm_ss comps' (Some has_sep) rest' next in
                Ok (v :: vs, e)
              else if Ascii.eqb c "." || Ascii.eqb c "," then Ok ([v], Fraction_next rest')
              else if negb has_sep then
                let? '(vs, e) := _parse_hh_mm_ss comps' (Some has_sep) rest next in
                Ok (v :: vs, e)
              else Raise ValueError
          end
      end
  end.

(** The fraction: up to six digits are read as microseconds, further
    digits are skipped. *)
Definition parse_fraction (rest : string) (next : ascii) : result (Z * bool) :=
  let to_parse := Nat.min (String.length rest) 6 in
  match parse_digits to_parse 0 rest with
  | None => Raise ValueError
  | Some (v, p) =>
      let c := match skip_digits p with String c _ => c | EmptyString => next end in
      Ok (v * 10 ^ Z.of_nat (6 - to_parse), negb (Ascii.eqb c nul))
  end.

(** [HH[:MM[:SS[.f+]]]] as (hour, minute, second, microsecond), and
    whether something was left unread. *)
Definition _parse_hh_mm_ss_ff (tstr : string) (next : ascii)
    : result (Z * Z * Z * Z * bool) :=
  let? '(vs, e) := _parse_hh_mm_ss 3 None tstr next in
  let h := nth 0 vs 0 in
  let m := nth 1 vs 0 in
  let s := nth 2 vs 0 in
  match e with
  | Ended trailing => Ok (h, m, s, 0, trailing)
  | Fraction_next rest =>
      let? '(us, trailing) := parse_fraction rest next in
      Ok (h, m, s, us, trailing)
  end.

(** [timezone(offset)]: the offset must be strictly within a day. *)
Definition timezone (offset : Z) : result (option Z) :=
  if (-86400000000 <? offset) && (offset <? 86400000000) then Ok (Some offset)
  else Raise ValueError.

(** The first [Z], [+] or [-]. *)
Fixpoint find_tz (s : string) : option nat :=
  match s with
  | EmptyString => None
  | String c rest =>
      if Ascii.eqb c "Z" || Ascii.eqb c "+" || Ascii.eqb c "-" then Some O
      else option_map S (find_tz rest)
  end.

(** The time and the offset.  The offset starts at the first [Z], [+]
    or [-]; what is left unread before it is ignored, what is left
    unread at the end is an error.  An offset of no whole seconds is
    UTC. *)
Definition _parse_isoformat_time (tstr : string) : result (Z * Z * Z * Z * option Z) :=
  match tstr with
  | EmptyString => Raise ValueError
  | _ =>
      match find_tz tstr with
      | None =>
          let? '(h, m, s, us, trailing) := _parse_hh_mm_ss_ff tstr nul in
          if trailing then Raise ValueError else Ok (h, m, s, us, None)
      | Some i =>
          let sign := char_at i tstr in
          let? '(h, m, s, us, _) := _parse_hh_mm_ss_ff (take i tstr) sign in
          if Ascii.eqb sign "Z" then
            if Ascii.eqb (char_at (S i) tstr) nul then Ok (h, m, s, us, utc)
            else Raise ValueError
          else
            let? '(tzh, tzm, tzs, tzus, trailing) :=
              _parse_hh_mm_ss_ff (drop (S i) tstr) nul in
            if trailing then Raise ValueError
            else
              let tzsign := if Ascii.eqb sign "-" then -1 else 1 in
              let tzoffset := tzsign * (tzh * 3600 + tzm * 60 + tzs) in
              if tzoffset =? 0 then Ok (h, m, s, us, utc)
              else
                let? tzi := timezone (tzoffset * 1000000 + tzsign * tzus) in
                Ok (h, m, s, us, tzi)
      end
  end.

(** The field checks of the [datetime] constructor. *)
Definition check_fields (dt : datetime) : result datetime :=
  if (1 <=? year dt) && (year dt <=? 9999)
     && (1 <=? month dt) && (month dt <=? 12)
     && (1 <=? day dt) && (day dt <=? days_in_month (year dt) (month dt))
     && (0 <=? hour dt) && (hour dt <=? 23)
     && (0 <=? minute dt) && (minute dt <=? 59)
     && (0 <=? second dt) && (second dt <=? 59)
     && (0 <=? microsecond dt) && (microsecond dt <=? 999999)
  then Ok dt else Raise ValueError.

(** The bytes of the character that separates date and time, from its
    first byte. *)
Definition separator_width (c : ascii) : nat :=
  let n := nat_of_ascii c in
  if (n <? 128)%nat then 1%nat
  else if (240 <=? n)%nat then 4%nat
  else if (224 <=? n)%nat then 3%nat
  else 2%nat.

(** [datetime.fromisoformat(date_string)], as CPython 3.11 implements
    it: a date, and after one separator character of any kind a time
    with an optional offset.  Anything else is a [ValueError]. *)
Definition fromisoformat (date_string : string) : result datetime :=
  let len := String.length date_string in
  if (len <? 7)%nat then Raise ValueError
  else
    match _find_isoformat_datetime_separator date_string with
    | None => Raise ValueError
    | Some sep =>
        let? '(y, mo, d) := _parse_isoformat_date date_string sep in
        let? '(h, mi, s, us, tz) :=
          if (sep <? len)%nat then
            _parse_isoformat_time
              (drop (sep + separator_width (char_at sep date_string)) date_string)
          else Ok (0, 0, 0, 0, None) in
        check_fields (mk_datetime y mo d h mi s us tz)
    end.




(** [datetime.fromisoformat(v.replace("Z", "+00:00"))], the expression
    both mappings use for [receivedAt]. *)
Definition received_at_of (v : pyval) : result datetime :=
  let? s := replace_Z v in
  fromisoformat s.


(** *** Wire timestamps *)

(** A decimal digit as a character, and numbers written with a fixed
    number of digits. *)
Definition digit_char (n : Z) : ascii := ascii_of_nat (48 + Z.to_nat n).

Definition two_digits (n : Z) : string :=
  String (digit_char (n / 10)) (String (digit_char (n mod 10)) EmptyString).

Definition three_digits (n : Z) : string :=
  String (digit_char (n / 100)) (two_digits (n mod 100)).

Definition four_digits (n : Z) : string :=
  two_digits (n / 100) ++ two_digits (n mod 100).

(** The [timespec] of [datetime.isoformat]: how far the seconds are
    written out. *)
Inductive timespec : Type := Seconds | Milliseconds | Microseconds.

Definition fraction (spec : timespec) (us : Z) : string :=
  match spec with
  | Seconds => ""
  | Milliseconds => "." ++ three_digits (us / 1000)
  | Microseconds => "." ++ three_digits (us / 1000) ++ three_digits (us mod 1000)
  end.

(** [dt.isoformat(timespec=spec)] for a naive [dt]:
    [YYYY-MM-DDTHH:MM:SS], then [.fff] or [.ffffff].  With a [Z] after
    it this is the wire form of a timestamp. *)
Definition isoformat (spec : timespec) (dt : datetime) : string :=
  four_digits (year dt) ++ "-" ++ two_digits (month dt) ++ "-" ++ two_digits (day dt)
  ++ "T" ++ two_digits (hour dt) ++ ":" ++ two_digits (minute dt) ++ ":"
  ++ two_digits (second dt) ++ fraction spec (microsecond dt).

(** The microseconds are written out in full. *)
Definition representable (spec : timespec) (us : Z) : bool :=
  match spec with
  | Seconds => us =? 0
  | Milliseconds => us mod 1000 =? 0
  | Microseconds => true
  end.

(** *** ISO-8601 layouts *)

(** Decimal digits, written out. *)
Fixpoint digits_string (ds : list Z) : string :=
  match ds with
  | [] => EmptyString
  | d :: rest => String (digit_char d) (digits_string rest)
  end.

(** The microseconds that the digits of a fraction of a second stand
    for: the first six count, the others are cut off. *)
Definition micros (ds : list Z) : Z :=
  fold_left (fun acc d => 10 * acc + d) (firstn 6 (ds ++ [0; 0; 0; 0; 0; 0])%list) 0.

(** How far a time is written out; a fraction of a second comes after
    a point or a comma. *)
Inductive precision : Type :=
| To_hours
| To_minutes
| To_seconds
| To_fraction (comma : bool) (ds : list Z).

(** A calendar date, extended ([YYYY-MM-DD]) or basic ([YYYYMMDD]). *)
Definition wire_date (basic : bool) (dt : datetime) : string :=
  let hyphen := if basic then "" else "-" in
  four_digits (year dt) ++ hyphen ++ two_digits (month dt) ++ hyphen ++ two_digits (day dt).

(** A time of day, extended ([HH:MM:SS]) or basic ([HHMMSS]), as far
    as [upto] says. *)
Definition wire_time (basic : bool) (upto : precision) (dt : datetime) : string :=
  let colon := if basic then "" else ":" in
  two_digits (hour dt)
  ++ match upto with
     | To_hours => ""
     | To_minutes => colon ++ two_digits (minute dt)
     | To_seconds => colon ++ two_digits (minute dt) ++ colon ++ two_digits (second dt)
     | To_fraction comma ds =>
         colon ++ two_digits (minute dt) ++ colon ++ two_digits (second dt)
         ++ (if comma then "," else ".") ++ digits_string ds
     end.

(** A date and a time with one character between them, [T] as a rule. *)
Definition wire (basic_date : bool) (separator : ascii) (basic_time : bool)
    (upto : precision) (dt : datetime) : string :=
  wire_date basic_date dt ++ String separator (wire_time basic_time upto dt).

(** What such a text says: the fields that are written, zero for the
    others, no offset. *)
Definition shown (upto : precision) (dt : datetime) : datetime :=
  mk_datetime (year dt) (month dt) (day dt) (hour dt)
    (match upto with To_hours => 0 | _ => minute dt end)
    (match upto with To_hours | To_minutes => 0 | _ => second dt end)
    (match upto with To_fraction _ ds => micros ds | _ => 0 end)
    None.

(** The digits of a fraction: at least one, each from 0 to 9. *)
Definition fraction_digits (upto : precision) : Prop :=
  match upto with
  | To_fraction _ ds => ds <> [] /\ Forall (fun d => 0 <= d < 10) ds
  | _ => True
  end.


(** ** Data model *)

(** The dataclasses.  A field holds whatever the response carried under
    the key it is read from: construction checks no type. *)
Module AttachmentMeta.
Record t : Type := mk {
  id : pyval;
  name : pyval;
  type : pyval;
  size : pyval
}.
End AttachmentMeta.

Module EmailSummary.
Record t : Type := mk {
  id : pyval;
  sender : pyval;
  subject : pyval;
  text_preview : pyval;
  received_at : datetime;
  has_attachments : pyval
}.
End EmailSummary.

Module EmailDetail.
Record t : Type := mk {
  id : pyval;
  sender : pyval;
  to : pyval;
  subject : pyval;
  html : pyval;
  text : pyval;
  received_at : datetime;
  has_attachments : pyval;
  attachments : list AttachmentMeta.t
}.
End EmailDetail.

Module PaginatedEmailList.
Record t : Type := mk {
  data : list EmailSummary.t;
  next_cursor : pyval;
  total : pyval
}.
End PaginatedEmailList.

(** ** Transport *)

Definition headers : Type := list (string * string).

(** What is handed to [urllib.request.Request]; [data] is the dict that
    [json.dumps] serialises, when the request has a body. *)
Record Request : Type := mk_request {
  url : string;
  data : option (list (string * string));
  req_headers : headers;
  method : string
}.

(** The outcome of [json.loads(body.decode("utf-8"))]. *)
Inductive decoded : Type :=
| Loaded (v : pyval)
| NotJSON
| NotUTF8.

(** What [urlopen] does with a request: a 2xx response, an [HTTPError]
    (with its code, its reason phrase and its body), a [URLError], or
    any other exception.  urllib wraps in [URLError] what goes wrong
    while it connects and sends (no such host, connection refused, a
    connect that times out); what goes wrong while it waits for the
    response it raises as it is: the [TimeoutError] of a response that
    does not come in time, [ConnectionResetError], [RemoteDisconnected],
    and [InvalidURL] for a path with a space or a control character.
    A body is given by its bytes and by what decoding them gives. *)
Inductive urlopen_result : Type :=
| Response (content : string) (hdrs : headers) (body : decoded)
| HTTPError (code : Z) (msg : string) (body : decoded)
| URLError (reason : string)
| OtherError (e : exn).

(** [name.lower()] of a header name; the names that [http.client]
    parses are printable ASCII. *)
Definition lower_char (c : ascii) : ascii :=
  let n := nat_of_ascii c in
  if Nat.leb 65 n && Nat.leb n 90 then ascii_of_nat (n + 32) else c.

Fixpoint lower (s : string) : string :=
  match s with
  | EmptyString => EmptyString
  | String c rest => String (lower_char c) (lower rest)
  end.

(** [headers[name]]: the value of the first header with that name,
    whatever the case of its letters. *)
Definition header_get (hdrs : headers) (name : string) : option string :=
  option_map snd (List.find (fun kv => String.eqb (lower (fst kv)) (lower name)) hdrs).

(** [d[k] = v] on a dict, which keeps its keys in the order they came. *)
Fixpoint dict_set (d : list (string * string)) (k v : string) : list (string * string) :=
  match d with
  | [] => [(k, v)]
  | (k', v') :: rest =>
      if String.eqb k' k then (k', v) :: rest else (k', v') :: dict_set rest k v
  end.

(** [dict(headers)]: for every name in [headers.keys()], in their
    order, [d[name] = headers[name]]. *)
Definition dict_of_headers (hdrs : headers) : list (string * string) :=
  fold_left (fun d kv =>
               match header_get hdrs (fst kv) with
               | Some v => dict_set d (fst kv) v
               | None => d
               end) hdrs [].

(** [str(e)] of an [HTTPError]. *)
Definition str_HTTPError (code : Z) (msg : string) : string :=
  "HTTP Error " ++ str_of_int code ++ ": " ++ msg.

(** What [_request] returns: decoded JSON, or with [raw_response] the
    bytes and the headers. *)
Inductive reply : Type :=
| Json (v : pyval)
| Raw (content : string) (hdrs : headers).

(** ** The world: network and clock *)

(** The server side and the network: the answer to the [n]-th request
    sent (counted from 0), and how long that request takes.  Times are
    in ticks of the clock; timeouts and intervals are in the same unit. *)
Record Env : Type := mk_env {
  respond : nat -> Request -> urlopen_result;
  latency : nat -> Z
}.

(** What the client did, with the clock at the moment it started. *)
Inductive Event : Type :=
| Sent (at_time : Z) (req : Request) (timeout : Z)
| Slept (at_time : Z) (seconds : Z).

Record World : Type := mk_world {
  clock : Z;
  trace : list Event
}.

Definition is_sent (ev : Event) : bool :=
  match ev with
  | Sent _ _ _ => true
  | Slept _ _ => false
  end.

Definition requests_made (w : World) : nat := List.length (filter is_sent (trace w)).

(** Computations that read and change the world and may raise. *)
Definition M (A : Type) : Type := World -> result A * World.

Definition ret {A} (a : A) : M A := fun w => (Ok a, w).

Definition bind {A B} (m : M A) (k : A -> M B) : M B :=
  fun w =>
    match m w with
    | (Ok a, w') => k a w'
    | (Raise e, w') => (Raise e, w')
    end.

Definition lift {A} (r : result A) : M A := fun w => (r, w).

Declare Scope M_scope.
Delimit Scope M_scope with M.
Notation "x <- m ;; k" := (bind m (fun x => k))
  (at level 61, m at next level, right associativity) : M_scope.
Notation "m ;; k" := (bind m (fun _ => k))
  (at level 61, right associativity) : M_scope.

(** [time.time()] *)
Definition time : M Z := fun w => (Ok (clock w), w).

(** [time.sleep(seconds)]; a negative length is a [ValueError]. *)
Definition sleep (seconds : Z) : M unit :=
  fun w =>
    if seconds <? 0 then (Raise ValueError, w)
    else (Ok tt, mk_world (clock w + seconds) (trace w ++ [Slept (clock w) seconds])%list).

(** What one pass through the body of a [while] loop ends in. *)
Inductive step (A : Type) : Type :=
| Return (a : A)
| Continue.
Arguments Return {A} a.
Arguments Continue {A}.

(** A loop, run for at most [fuel] passes; [None] when they do not
    suffice. *)
Fixpoint while {A} (fuel : nat) (pass : M (step A)) (w : World)
    : option (result A * World) :=
  match fuel with
  | O => None
  | S fuel' =>
      match pass w with
      | (Ok (Return a), w') => Some (Ok a, w')
      | (Ok Continue, w') => while fuel' pass w'
      | (Raise e, w') => Some (Raise e, w')
      end
  end.

Section Client.

Variable env : Env.

(** [urllib.request.urlopen(req, timeout=timeout)], read to the end. *)
Definition urlopen (req : Request) (timeout : Z) : M urlopen_result :=
  fun w =>
    let n := requests_made w in
    (Ok (respond env n req),
     mk_world (clock w + latency env n) (trace w ++ [Sent (clock w) req timeout])%list).

(** The world once [req] has been sent and answered. *)
Definition after_request (req : Request) (timeout : Z) (w : World) : World :=
  mk_world (clock w + latency env (requests_made w))
           (trace w ++ [Sent (clock w) req timeout])%list.

(** ** The client *)

Record VanishClient : Type := mk_client {
  base_url : string;
  api_key : option string;
  timeout : Z
}.

(** [VanishClient.__init__] *)
Definition init (base_url : string) (api_key : option string) (timeout : Z) : VanishClient :=
  mk_client (rstrip "/" base_url) api_key timeout.

(** [create_client] *)
Definition create_client (base_url : string) (api_key : option string) : VanishClient :=
  init base_url api_key 30.

(** The dict comprehension of [_request]: the items whose value is not
    [None]. *)
Fixpoint present (params : list (string * option qval)) : list (string * qval) :=
  match params with
  | [] => []
  | (k, Some v) :: rest => (k, v) :: present rest
  | (k, None) :: rest => present rest
  end.

(** The URL [_request] builds from path and parameters. *)
Definition request_url (self : VanishClient) (path : string)
    (params : list (string * option qval)) : string :=
  let url := base_url self ++ path in
  match params with
  | [] => url
  | _ =>
      let query := urlencode (present params) in
      match query with
      | EmptyString => url
      | _ => url ++ "?" ++ query
      end
  end.

Definition request_headers (self : VanishClient) : headers :=
  let hs := [("Content-Type", "application/json")] in
  match api_key self with
  | Some (String c k) => List.app hs [("Authorization", "Bearer " ++ String c k)]
  | _ => hs
  end.

(** The request [_request] hands to [urlopen]. *)
Definition build_request (self : VanishClient) (method path : string)
    (params : list (string * option qval)) (body : list (string * string)) : Request :=
  mk_request (request_url self path params)
             (match body with [] => None | _ => Some body end)
             (request_headers self)
             method.

(** The [try] block of [_request] and its two handlers; an exception
    that is neither an [HTTPError] nor a [URLError] passes through. *)
Definition handle (raw_response : bool) (r : urlopen_result) : result reply :=
  match r with
  | Response content hdrs body =>
      if raw_response then Ok (Raw content hdrs)
      else match body with
           | Loaded v => Ok (Json v)
           | NotJSON => Raise JSONDecodeError
           | NotUTF8 => Raise UnicodeDecodeError
           end
  | HTTPError code msg body =>
      let? message :=
        match body with
        | Loaded error_body => get error_body "error" (PStr (str_HTTPError code msg))
        | NotJSON | NotUTF8 => Ok (PStr (str_HTTPError code msg))
        end in
      Raise (VanishError message (Some code))
  | URLError reason =>
      Raise (VanishError (PStr ("Connection error: " ++ reason)) None)
  | OtherError e => Raise e
  end.

Open Scope M_scope.

(** [VanishClient._request]; [params] and [body] are empty when the
    caller passes none. *)
Definition _request (self : VanishClient) (method path : string)
    (params : list (string * option qval)) (body : list (string * string))
    (raw_response : bool) : M reply :=
  r <- urlopen (build_request self method path params body) (timeout self) ;;
  lift (handle raw_response r).

(** The decoded JSON of a reply ([_request] without [raw_response]
    always gives one). *)
Definition json_of (r : reply) : pyval :=
  match r with
  | Json v => v
  | Raw _ _ => PNone
  end.

Definition get_domains (self : VanishClient) : M pyval :=
  resp <- _request self "GET" "/domains" [] [] false ;;
  lift (getitem (json_of resp) "domains").

(** An optional string that is given and not empty. *)
Definition truthy (o : option string) : option string :=
  match o with
  | Some (String c s) => Some (String c s)
  | _ => None
  end.

Definition generate_email (self : VanishClient) (domain prefix : option string) : M pyval :=
  let body :=
    (match truthy domain with Some d => [("domain", d)] | None => [] end
     ++ match truthy prefix with Some p => [("prefix", p)] | None => [] end)%list in
  resp <- _request self "POST" "/mailbox" [] body false ;;
  lift (getitem (json_of resp) "email").

(** One item of the listing. *)
Definition summary_of (e : pyval) : result EmailSummary.t :=
  let? id := getitem e "id" in
  let? sender := getitem e "from" in
  let? subject := getitem e "subject" in
  let? text_preview := getitem e "textPreview" in
  let? received := getitem e "receivedAt" in
  let? received_at := received_at_of received in
  let? has_attachments := getitem e "hasAttachments" in
  Ok (EmailSummary.mk id sender subject text_preview received_at has_attachments).

(** The mapping of [list_emails] from the decoded response. *)
Definition list_emails_result (resp : pyval) : result PaginatedEmailList.t :=
  let? data := getitem resp "data" in
  let? items := iter data in
  let? emails := comprehension summary_of items in
  let? next_cursor := get resp "nextCursor" PNone in
  let? total := getitem resp "total" in
  Ok (PaginatedEmailList.mk emails next_cursor total).

Definition list_emails (self : VanishClient) (address : string) (limit : Z)
    (cursor : option string) : M PaginatedEmailList.t :=
  let encoded_address := quote address in
  resp <- _request self "GET" ("/mailbox/" ++ encoded_address)
            [("limit", Some (QInt limit)); ("cursor", option_map QStr cursor)] [] false ;;
  lift (list_emails_result (json_of resp)).

Definition attachment_of (a : pyval) : result AttachmentMeta.t :=
  let? id := getitem a "id" in
  let? name := getitem a "name" in
  let? type := getitem a "type" in
  let? size := getitem a "size" in
  Ok (AttachmentMeta.mk id name type size).

(** The mapping of [get_email] from the decoded response. *)
Definition get_email_result (resp : pyval) : result EmailDetail.t :=
  let? listed := get resp "attachments" (PList []) in
  let? items := iter listed in
  let? attachments := comprehension attachment_of items in
  let? id := getitem resp "id" in
  let? sender := getitem resp "from" in
  let? to := getitem resp "to" in
  let? subject := getitem resp "subject" in
  let? html := getitem resp "html" in
  let? text := getitem resp "text" in
  let? received := getitem resp "receivedAt" in
  let? received_at := received_at_of received in
  let? has_attachments := getitem resp "hasAttachments" in
  Ok (EmailDetail.mk id sender to subject html text received_at has_attachments attachments).

Definition get_email (self : VanishClient) (email_id : string) : M EmailDetail.t :=
  resp <- _request self "GET" ("/email/" ++ email_id) [] [] false ;;
  lift (get_email_result (json_of resp)).

Definition get_attachment (self : VanishClient) (email_id attachment_id : string)
    : M (string * headers) :=
  r <- _request self "GET" ("/email/" ++ email_id ++ "/attachments/" ++ attachment_id)
         [] [] true ;;
  lift (match r with
        | Raw content hdrs => Ok (content, dict_of_headers hdrs)
        | Json _ => Raise TypeError
        end).

Definition delete_email (self : VanishClient) (email_id : string) : M pyval :=
  resp <- _request self "DELETE" ("/email/" ++ email_id) [] [] false ;;
  lift (get (json_of resp) "success" (PBool false)).

Definition delete_mailbox (self : VanishClient) (address : string) : M pyval :=
  let encoded_address := quote address in
  resp <- _request self "DELETE" ("/mailbox/" ++ encoded_address) [] [] false ;;
  lift (get (json_of resp) "deleted" (PInt 0)).

(** ** Polling *)

(** [result.total > initial_count and result.data] *)
Definition new_mail (listing : PaginatedEmailList.t) (initial_count : Z) : result bool :=
  let? more := gt (PaginatedEmailList.total listing) initial_count in
  Ok (more && match PaginatedEmailList.data listing with [] => false | _ => true end).

(** The test of the loop of [poll_for_emails] and its body. *)
Definition poll_pass (self : VanishClient) (address : string)
    (timeout interval initial_count : Z) (start : Z) : M (step (option EmailSummary.t)) :=
  now <- time ;;
  if now - start <? timeout then
    result <- list_emails self address 1 None ;;
    found <- lift (new_mail result initial_count) ;;
    match found, PaginatedEmailList.data result with
    | true, first :: _ => ret (Return (Some first))
    | _, _ => sleep interval ;; ret Continue
    end
  else ret (Return None).

Definition poll_for_emails (fuel : nat) (self : VanishClient) (address : string)
    (timeout interval initial_count : Z) (w : World)
    : option (result (option EmailSummary.t) * World) :=
  let start := clock w in
  while fuel (poll_pass self address timeout interval initial_count start) w.

Close Scope M_scope.

End Client.


(** ** Observing a run *)

(** The URLs of the requests sent so far, oldest first. *)
Definition urls (w : World) : list string :=
  flat_map (fun ev => match ev with
                      | Sent _ req _ => [url req]
                      | Slept _ _ => []
                      end) (trace w).

(** No reserved character is left in [s]. *)
Definition no_reserved (s : string) : bool :=
  forallb (fun c => negb (reserved c)) (list_ascii_of_string s).

(** A server nobody listens on, a clock at zero with nothing done yet,
    and the client of the module's docstring. *)
Definition refusing : Env :=
  mk_env (fun _ _ => URLError "[Errno 111] Connection refused") (fun _ => 0).
Definition fresh : World := mk_world 0 [].
Definition example_client : VanishClient := init "https://api.vanish.host" (Some "your-key") 30.


(** The next request, whatever it is, gets the answer [r]. *)
Definition answers (env : Env) (w : World) (r : urlopen_result) : Prop :=
  forall req, respond env (requests_made w) req = r.


(** A server whose error page is a JSON array, and one with one mail
    in the box. *)
Definition failing_server : Env :=
  mk_env (fun _ _ => HTTPError 500 "Internal Server Error" (Loaded (PList []))) (fun _ => 0).

Definition example_mail : pyval :=
  PDict [("id", PStr "m1"); ("from", PStr "alice@example.com"); ("subject", PStr "Hi");
         ("textPreview", PStr "Hello"); ("receivedAt", PStr "2024-01-15T10:30:00Z");
         ("hasAttachments", PBool false)].

Definition example_listing : pyval :=
  PDict [("data", PList [example_mail]); ("total", PInt 1)].

Definition example_summary : EmailSummary.t :=
  EmailSummary.mk (PStr "m1") (PStr "alice@example.com") (PStr "Hi") (PStr "Hello")
    (mk_datetime 2024 1 15 10 30 0 0 utc) (PBool false).

Definition one_mail_server : Env :=
  mk_env (fun _ _ => Response "" [] (Loaded example_listing)) (fun _ => 0).


(** ** Polling, seen from outside *)

Section PollingRun.

Variable env : Env.
Variable self : VanishClient.
Variable address : string.

(** The request every check of [poll_for_emails] sends. *)
Definition poll_request : Request :=
  build_request self "GET" ("/mailbox/" ++ quote address)
    [("limit", Some (QInt 1)); ("cursor", None)] [].

(** What [list_emails(address, limit=1)] gives when it is the [n]-th
    request sent. *)
Definition listing (n : nat) : result PaginatedEmailList.t :=
  let? r := handle false (respond env n poll_request) in
  list_emails_result (json_of r).

(** The [n]-th request finds no new mail: the listing comes back and
    the test of the loop body is false. *)
Definition no_mail_yet (initial_count : Z) (n : nat) : Prop :=
  exists page, listing n = Ok page /\ new_mail page initial_count = Ok false.

(** The time [k] passes without new mail take, the first of them
    sending request [n]: each is one request and one sleep. *)
Fixpoint elapsed (interval : Z) (k n : nat) : Z :=
  match k with
  | O => 0
  | S k' => latency env n + interval + elapsed interval k' (S n)
  end.

(** The world after one such pass, and after [k] of them. *)
Definition after_round (interval : Z) (w : World) : World :=
  let w1 := after_request env poll_request (timeout self) w in
  mk_world (clock w1 + interval) (trace w1 ++ [Slept (clock w1) interval])%list.

Fixpoint after_rounds (interval : Z) (k : nat) (w : World) : World :=
  match k with
  | O => w
  | S k' => after_rounds interval k' (after_round interval w)
  end.

End PollingRun.

(** Every sleep recorded in [w] ends by the deadline, or is empty when
    the deadline has passed. *)
Definition sleeps_within (deadline : Z) (w : World) : Prop :=
  Forall (fun ev => match ev with
                    | Slept t d => d <= Z.max 0 (deadline - t)
                    | Sent _ _ _ => True
                    end) (trace w).

(** Every sleep recorded in [evs] lasts [interval]. *)
Definition sleeps_last (interval : Z) (evs : list Event) : Prop :=
  Forall (fun ev => match ev with
                    | Slept _ d => d = interval
                    | Sent _ _ _ => True
                    end) evs.

(** A mailbox that stays empty, answered at once or after 30 ticks. *)
Definition empty_listing : pyval := PDict [("data", PList []); ("total", PInt 0)].

Definition empty_box : Env :=
  mk_env (fun _ _ => Response "" [] (Loaded empty_listing)) (fun _ => 0).

Definition slow_empty_box : Env :=
  mk_env (fun _ _ => Response "" [] (Loaded empty_listing)) (fun _ => 30).

(** A mailbox that is empty at the first two checks and has one mail
    at the third. *)
Definition late_mail_box : Env :=
  mk_env (fun n _ => Response "" [] (Loaded (if (n <? 2)%nat then empty_listing
                                              else example_listing)))
         (fun _ => 1).


(** A mailbox whose server is down at the second check, and the
    response to [get_email] of a server that leaves out [attachments]. *)
Definition breaking_box : Env :=
  mk_env (fun n _ => if (n <? 1)%nat then Response "" [] (Loaded empty_listing)
                     else HTTPError 503 "Service Unavailable" NotJSON)
         (fun _ => 1).

Definition example_detail : list (string * pyval) :=
  [("id", PStr "m1"); ("from", PStr "alice@example.com");
   ("to", PList [PStr "a+b@example.com"]); ("subject", PStr "Hi");
   ("html", PStr "<p>Hello</p>"); ("text", PStr "Hello");
   ("receivedAt", PStr "2024-01-15T10:30:00Z"); ("hasAttachments", PBool false)].

Definition detail_server : Env :=
  mk_env (fun _ _ => Response "" [] (Loaded (PDict example_detail))) (fun _ => 0).


(** ** Further observations *)

(** [s.endswith(c)] *)
Fixpoint ends_with (c : ascii) (s : string) : bool :=
  match s with
  | EmptyString => false
  | String a EmptyString => Ascii.eqb a c
  | String _ rest => ends_with c rest
  end.

(** ["/" * n] *)
Fixpoint slashes (n : nat) : string :=
  match n with
  | O => EmptyString
  | S n' => String "/" (slashes n')
  end.

(** The headers a client with this key must send. *)
Definition expected_headers (key : option string) : headers :=
  ("Content-Type", "application/json")
  :: match key with
     | Some k => if String.eqb k "" then [] else [("Authorization", "Bearer " ++ k)]
     | None => []
     end.

(** The run sent exactly one request, [req], at the time [w] shows. *)
Definition sent_one (self : VanishClient) (w w' : World) (req : Request) : Prop :=
  trace w' = (trace w ++ [Sent (clock w) req (timeout self)])%list.


(** The first of [keys] that the object [d] lacks. *)
Fixpoint first_missing (keys : list string) (d : list (string * pyval)) : option string :=
  match keys with
  | [] => None
  | k :: rest =>
      match lookup k d with
      | None => Some k
      | Some _ => first_missing rest d
      end
  end.

(** A server that lists two domains, and the mail of [example_detail]
    with [attachments] given as null. *)
Definition domains_server : Env :=
  mk_env (fun _ _ => Response "" []
            (Loaded (PDict [("domains", PList [PStr "vanish.host"; PStr "example.com"])])))
         (fun _ => 0).

Definition null_attachments_server : Env :=
  mk_env (fun _ _ => Response "" []
            (Loaded (PDict (("attachments", PNone) :: example_detail))))
         (fun _ => 0).


(** Every character of [s] is one [quote] leaves alone: a letter, a
    digit or one of [_.-~], as in a UUID. *)
Definition all_safe (s : string) : bool := forallb always_safe (list_ascii_of_string s).

(** [unquote_plus]: [+] stands for a space, then percent-decoding. *)
Definition unquote_plus (s : string) : string := unquote (replace "+" " " s).

(** No character of [s] delimits a query parameter or ends the query. *)
Definition no_query_delimiter (s : string) : bool :=
  forallb (fun c => negb (char_in c "&=#?/ ")) (list_ascii_of_string s).


(** A server whose listing has a further page. *)
Definition paged_server : Env :=
  mk_env (fun _ _ => Response "" []
            (Loaded (PDict [("data", PList []); ("nextCursor", PStr "page 2&x=1");
                            ("total", PInt 3)])))
         (fun _ => 0).


(** Every operation that decodes its response raises [e] when run in
    [w]; a poll does at its first check. *)
Definition json_operations_raise (env : Env) (self : VanishClient) (w : World) (e : exn)
    : Prop :=
  fst (get_domains env self w) = Raise e
  /\ (forall domain prefix, fst (generate_email env self domain prefix w) = Raise e)
  /\ (forall address limit cursor,
         fst (list_emails env self address limit cursor w) = Raise e)
  /\ (forall email_id, fst (get_email env self email_id w) = Raise e)
  /\ (forall email_id, fst (delete_email env self email_id w) = Raise e)
  /\ (forall address, fst (delete_mailbox env self address w) = Raise e)
  /\ (forall address wait interval initial_count fuel,
         0 < wait ->
         option_map fst
           (poll_for_emails env (S fuel) self address wait interval initial_count w)
         = Some (Raise e)).

(** The message of the [VanishError] for an HTTP error: the [error]
    field of a JSON object body, or else [str(e)]. *)
Definition http_error_message (code : Z) (msg : string) (body : decoded) : pyval :=
  match body with
  | Loaded (PDict d) =>
      match lookup "error" d with
      | Some m => m
      | None => PStr (str_HTTPError code msg)
      end
  | _ => PStr (str_HTTPError code msg)
  end.

(** A server that answers 404 with a JSON error, and one whose
    attachment is not text. *)
Definition not_found_server : Env :=
  mk_env (fun _ _ => HTTPError 404 "Not Found"
                       (Loaded (PDict [("error", PStr "mailbox not found")])))
         (fun _ => 0).

Definition attachment_server : Env :=
  mk_env (fun _ _ => Response "%PDF-1.7" [("Content-Type", "application/pdf")] NotJSON)
         (fun _ => 0).


(** A value that cannot be ordered against an int. *)
Definition unordered (v : pyval) : Prop :=
  v = PNone \/ (exists s, v = PStr s) \/ (exists l, v = PList l) \/ (exists d, v = PDict d).

(** A mailbox whose listing gives [total] as null. *)
Definition null_total_box : Env :=
  mk_env (fun _ _ => Response "" [] (Loaded (PDict [("data", PList []); ("total", PNone)])))
         (fun _ => 0).


(** A mailbox whose listing counts mail that it does not show, and a
    server that answers a deletion with words. *)
Definition phantom_box : Env :=
  mk_env (fun _ _ => Response "" [] (Loaded (PDict [("data", PList []); ("total", PInt 7)])))
         (fun _ => 0).

Definition chatty_server : Env :=
  mk_env (fun _ _ => Response "" []
                       (Loaded (PDict [("success", PStr "yes"); ("deleted", PNone)])))
         (fun _ => 0).



(** ** Further servers and mailboxes *)

(** A server that accepts the connection and then says nothing: the
    client's timeout runs out while urllib waits for the response. *)
Definition stalled_server : Env :=
  mk_env (fun _ _ => OtherError TimeoutError) (fun _ => 30).

(** A second mail, and a mailbox that holds one mail from the start and
    gets the second one at the third check; a listing with [limit=1]
    shows the newest mail and counts them all. *)
Definition second_mail : pyval :=
  PDict [("id", PStr "m2"); ("from", PStr "bob@example.com"); ("subject", PStr "Re: Hi");
         ("textPreview", PStr "Hello again"); ("receivedAt", PStr "2024-01-15T10:31:00Z");
         ("hasAttachments", PBool true)].

Definition second_summary : EmailSummary.t :=
  EmailSummary.mk (PStr "m2") (PStr "bob@example.com") (PStr "Re: Hi") (PStr "Hello again")
    (mk_datetime 2024 1 15 10 31 0 0 utc) (PBool true).

Definition second_listing : pyval :=
  PDict [("data", PList [second_mail]); ("total", PInt 2)].

Definition busy_box : Env :=
  mk_env (fun n _ => Response "" [] (Loaded (if (n <? 2)%nat then example_listing
                                              else second_listing)))
         (fun _ => 1).

(** The [n]-th request finds nothing new, in the words of the
    specification: the listing comes back, and its count is not above
    [initial_count] or it shows no item. *)
Definition nothing_new (env : Env) (self : VanishClient) (address : string)
    (initial_count : Z) (n : nat) : Prop :=
  exists page count,
    listing env self address n = Ok page
    /\ PaginatedEmailList.total page = PInt count
    /\ (count <= initial_count \/ PaginatedEmailList.data page = []).

(** A page of two mails, and a mail with two attachments. *)
Definition two_mails : list (string * pyval) :=
  [("data", PList [second_mail; example_mail]); ("total", PInt 2)].

Definition two_mail_server : Env :=
  mk_env (fun _ _ => Response "" [] (Loaded (PDict two_mails))) (fun _ => 0).

Definition first_attachment : pyval :=
  PDict [("id", PStr "a1"); ("name", PStr "report.pdf"); ("type", PStr "application/pdf");
         ("size", PInt 1024)].

Definition second_attachment : pyval :=
  PDict [("id", PStr "a2"); ("name", PStr "photo.png"); ("type", PStr "image/png");
         ("size", PInt 2048)].

Definition two_attachments : list (string * pyval) :=
  ("attachments", PList [first_attachment; second_attachment]) :: example_detail.

Definition two_attachment_server : Env :=
  mk_env (fun _ _ => Response "" [] (Loaded (PDict two_attachments))) (fun _ => 0).

(** An attachment that comes with three cookies. *)
Definition cookie_headers : headers :=
  [("Content-Type", "application/pdf"); ("Set-Cookie", "a=1"); ("set-cookie", "b=2");
   ("Set-Cookie", "c=3")].

Definition cookie_server : Env :=
  mk_env (fun _ _ => Response "%PDF-1.7" cookie_headers NotJSON) (fun _ => 0).

(** The run built one request, with the method [verb] and the headers
    the client's key calls for, and handed it over with the client's
    timeout; [bare] says that it has no body. *)
Definition builds (self : VanishClient) (w : World) {A} (run : result A * World)
    (verb : string) (bare : bool) : Prop :=
  exists req, sent_one self w (snd run) req
              /\ method req = verb
              /\ req_headers req = expected_headers (api_key self)
              /\ (bare = true -> data req = None).




(** * Properties *)

Example quote_example : quote "a+b@example.com" = "a%2Bb%40example.com".
Proof. reflexivity. Qed.

Example unquote_example : unquote "a%2Bb%40example.com" = "a+b@example.com".
Proof. reflexivity. Qed.

Lemma unquote_quote_byte (c : ascii) (s : string) :
  unquote ((if always_safe c then String c EmptyString else percent_byte c) ++ s)
  = String c (unquote s).
Proof.
  destruct c as [[] [] [] [] [] [] [] []]; reflexivity.
Qed.

Lemma unquote_quote (s : string) : unquote (quote s) = s.
Proof.
  induction s as [|c s IH]; [reflexivity|].
  cbn [quote]. rewrite unquote_quote_byte. now rewrite IH.
Qed.

Example fromisoformat_example :
  received_at_of (PStr "2024-01-15T10:30:00Z")
  = Ok (mk_datetime 2024 1 15 10 30 0 0 utc).
Proof. reflexivity. Qed.

(** The parser on the forms it knows and on some it refuses: a short
    fraction, the basic form, a long fraction after a comma, a time to
    the minute after a space, a date alone, a week date, offsets, and
    then a date with nothing after the separator, the 30th of February,
    a month of one digit and something after the offset. *)
Example fromisoformat_forms :
  fromisoformat "2024-01-15T10:30:00.5+00:00" = Ok (mk_datetime 2024 1 15 10 30 0 500000 utc)
  /\ fromisoformat "20240115T103000+00:00" = Ok (mk_datetime 2024 1 15 10 30 0 0 utc)
  /\ fromisoformat "2024-01-15T10:30:00,1234567"
     = Ok (mk_datetime 2024 1 15 10 30 0 123456 None)
  /\ fromisoformat "2024-01-15 10:30" = Ok (mk_datetime 2024 1 15 10 30 0 0 None)
  /\ fromisoformat "2024-01-15" = Ok (mk_datetime 2024 1 15 0 0 0 0 None)
  /\ fromisoformat "2024-W03-1T10" = Ok (mk_datetime 2024 1 15 10 0 0 0 None)
  /\ fromisoformat "2024-01-15T10:30:00+05:30"
     = Ok (mk_datetime 2024 1 15 10 30 0 0 (Some 19800000000))
  /\ fromisoformat "2024-01-15T10:30:00-00:00" = Ok (mk_datetime 2024 1 15 10 30 0 0 utc)
  /\ fromisoformat "2024-01-15T" = Raise ValueError
  /\ fromisoformat "2024-02-30T10:30:00" = Raise ValueError
  /\ fromisoformat "2024-1-15T10:30:00" = Raise ValueError
  /\ fromisoformat "2024-01-15T10:30:00+00:00Z" = Raise ValueError.
Proof. repeat split. Qed.


(** ** Running one request *)

Lemma str_of_uint_safe (d : Decimal.uint) :
  quote_plus (NilEmpty.string_of_uint d) = NilEmpty.string_of_uint d.
Proof. induction d; cbn; now rewrite ?IHd. Qed.

(** The decimal form of an int passes through [quote_plus] unchanged. *)
Lemma quote_plus_str_of_int (z : Z) : quote_plus (str_of_int z) = str_of_int z.
Proof.
  unfold str_of_int, NilZero.string_of_int.
  destruct (Z.to_int z) as [d|d]; unfold NilZero.string_of_uint;
    destruct d; cbn; now rewrite ?str_of_uint_safe.
Qed.

Lemma list_ascii_app (s t : string) :
  list_ascii_of_string (s ++ t) = (list_ascii_of_string s ++ list_ascii_of_string t)%list.
Proof. induction s as [|c s IH]; cbn; [reflexivity | now rewrite IH]. Qed.

Lemma no_reserved_app (s t : string) :
  no_reserved (s ++ t) = no_reserved s && no_reserved t.
Proof. unfold no_reserved. now rewrite list_ascii_app, forallb_app. Qed.

Lemma no_reserved_quote_byte (c : ascii) :
  no_reserved (if always_safe c then String c EmptyString else percent_byte c) = true.
Proof. destruct c as [[] [] [] [] [] [] [] []]; reflexivity. Qed.

(** What [quote] produces carries no reserved character. *)
Lemma no_reserved_quote (s : string) : no_reserved (quote s) = true.
Proof.
  induction s as [|c s IH]; [reflexivity|].
  cbn [quote]. now rewrite no_reserved_app, no_reserved_quote_byte, IH.
Qed.

Lemma str_assoc (s t u : string) : (s ++ t) ++ u = s ++ t ++ u.
Proof. induction s as [|c s IH]; cbn; [reflexivity | now rewrite IH]. Qed.

Lemma str_nil_r (s : string) : s ++ "" = s.
Proof. induction s as [|c s IH]; cbn; [reflexivity | now rewrite IH]. Qed.

Lemma urlencode_limit (limit : Z) :
  urlencode [("limit", QInt limit)] = "limit=" ++ str_of_int limit.
Proof.
  unfold urlencode; cbn [map join fst snd str_of_qval].
  change (quote_plus "limit") with "limit".
  now rewrite quote_plus_str_of_int.
Qed.

Lemma urlencode_limit_cursor (limit : Z) (c : string) :
  urlencode [("limit", QInt limit); ("cursor", QStr c)]
  = "limit=" ++ str_of_int limit ++ "&cursor=" ++ quote_plus c.
Proof.
  unfold urlencode; cbn [map join fst snd str_of_qval].
  change (quote_plus "limit") with "limit".
  change (quote_plus "cursor") with "cursor".
  rewrite quote_plus_str_of_int. cbn [append].
  rewrite ?str_assoc. reflexivity.
Qed.

Lemma urls_app (w : World) (t : Z) (tr : list Event) :
  urls (mk_world t (trace w ++ tr)) = (urls w ++ urls (mk_world t tr))%list.
Proof. unfold urls; cbn [trace]. apply flat_map_app. Qed.

Section Requests.

Variable env : Env.
Variable self : VanishClient.

(** [_request] sends exactly one request, the one [build_request]
    describes, and hands the answer to the handlers; what the caller
    then computes from the reply changes nothing in the world. *)
Lemma request_then {A} method path params body raw (f : reply -> result A) (w : World) :
  bind (_request env self method path params body raw) (fun r => lift (f r)) w
  = (rbind (handle raw (respond env (requests_made w)
                          (build_request self method path params body))) f,
     after_request env (build_request self method path params body) (timeout self) w).
Proof.
  unfold bind, _request, bind, urlopen, lift, after_request.
  destruct (handle raw _); reflexivity.
Qed.

Lemma urls_after_request (req : Request) (t : Z) (w : World) :
  urls (after_request env req t w) = List.app (urls w) [url req].
Proof. unfold after_request. rewrite urls_app. reflexivity. Qed.

Lemma requests_made_after_request (req : Request) (t : Z) (w : World) :
  requests_made (after_request env req t w) = S (requests_made w).
Proof.
  unfold after_request, requests_made; cbn [trace].
  rewrite filter_app, length_app. cbn. lia.
Qed.

(** The URL of a listing: the quoted address, then the query. *)
Lemma list_emails_url (address : string) (limit : Z) (cursor : option string) :
  request_url self ("/mailbox/" ++ quote address)
    [("limit", Some (QInt limit)); ("cursor", option_map QStr cursor)]
  = base_url self ++ "/mailbox/" ++ quote address ++ "?limit=" ++ str_of_int limit
    ++ match cursor with
       | Some c => "&cursor=" ++ quote_plus c
       | None => ""
       end.
Proof.
  unfold request_url.
  destruct cursor as [c|]; cbn [option_map present].
  - rewrite urlencode_limit_cursor. cbn [append].
    rewrite ?str_assoc. reflexivity.
  - rewrite urlencode_limit. cbn [append].
    rewrite ?str_assoc, ?str_nil_r. reflexivity.
Qed.

(** Each operation is one [_request] and a mapping of its reply. *)
Lemma list_emails_run address limit cursor (w : World) :
  let req := build_request self "GET" ("/mailbox/" ++ quote address)
               [("limit", Some (QInt limit)); ("cursor", option_map QStr cursor)] [] in
  list_emails env self address limit cursor w
  = (rbind (handle false (respond env (requests_made w) req))
           (fun r => list_emails_result (json_of r)),
     after_request env req (timeout self) w).
Proof. apply request_then. Qed.

Lemma delete_mailbox_run address (w : World) :
  let req := build_request self "DELETE" ("/mailbox/" ++ quote address) [] [] in
  delete_mailbox env self address w
  = (rbind (handle false (respond env (requests_made w) req))
           (fun r => get (json_of r) "deleted" (PInt 0)),
     after_request env req (timeout self) w).
Proof. apply request_then. Qed.

Lemma get_email_run email_id (w : World) :
  let req := build_request self "GET" ("/email/" ++ email_id) [] [] in
  get_email env self email_id w
  = (rbind (handle false (respond env (requests_made w) req))
           (fun r => get_email_result (json_of r)),
     after_request env req (timeout self) w).
Proof. apply request_then. Qed.

Lemma get_attachment_run email_id attachment_id (w : World) :
  let req := build_request self "GET"
               ("/email/" ++ email_id ++ "/attachments/" ++ attachment_id) [] [] in
  get_attachment env self email_id attachment_id w
  = (rbind (handle true (respond env (requests_made w) req))
           (fun r => match r with
                     | Raw content hdrs => Ok (content, dict_of_headers hdrs)
                     | Json _ => Raise TypeError
                     end),
     after_request env req (timeout self) w).
Proof. apply request_then. Qed.

Lemma delete_email_run email_id (w : World) :
  let req := build_request self "DELETE" ("/email/" ++ email_id) [] [] in
  delete_email env self email_id w
  = (rbind (handle false (respond env (requests_made w) req))
           (fun r => get (json_of r) "success" (PBool false)),
     after_request env req (timeout self) w).
Proof. apply request_then. Qed.

Lemma get_domains_run (w : World) :
  let req := build_request self "GET" "/domains" [] [] in
  get_domains env self w
  = (rbind (handle false (respond env (requests_made w) req))
           (fun r => getitem (json_of r) "domains"),
     after_request env req (timeout self) w).
Proof. apply request_then. Qed.

Lemma generate_email_run domain prefix (w : World) :
  exists req,
    generate_email env self domain prefix w
    = (rbind (handle false (respond env (requests_made w) req))
             (fun r => getitem (json_of r) "email"),
       after_request env req (timeout self) w).
Proof. eexists. apply request_then. Qed.

Lemma address_round_trip_urls address limit cursor (w : World) :
  urls (snd (list_emails env self address limit cursor w))
  = List.app (urls w) [base_url self ++ "/mailbox/" ++ quote address ++ "?limit="
                ++ str_of_int limit
                ++ match cursor with
                   | Some c => "&cursor=" ++ quote_plus c
                   | None => ""
                   end].
Proof.
  rewrite list_emails_run; cbn [snd].
  rewrite urls_after_request; cbn [build_request url].
  now rewrite list_emails_url.
Qed.

(** C9. The path segment [list_emails] and [delete_mailbox] put into
    the URL for an address is [quote(address, safe="")], and
    percent-decoding that segment gives the address back, whatever bytes
    it is made of. *)
Theorem address_round_trip (address : string) (limit : Z) (cursor : option string)
    (w : World) :
  urls (snd (list_emails env self address limit cursor w))
  = List.app (urls w) [base_url self ++ "/mailbox/" ++ quote address ++ "?limit="
                ++ str_of_int limit
                ++ match cursor with
                   | Some c => "&cursor=" ++ quote_plus c
                   | None => ""
                   end]
  /\ urls (snd (delete_mailbox env self address w))
     = List.app (urls w) [base_url self ++ "/mailbox/" ++ quote address]
  /\ unquote (quote address) = address.
Proof.
  repeat split.
  - apply address_round_trip_urls.
  - rewrite delete_mailbox_run; cbn [snd]. now rewrite urls_after_request.
  - apply unquote_quote.
Qed.

(** C3, as the code has it.  [list_emails] and [delete_mailbox] insert
    the address percent-encoded, and the encoded segment carries no
    reserved character, so it stays one path segment; [get_email],
    [get_attachment] and [delete_email] insert the identifiers as they
    are given. *)
Theorem path_segments (w : World) :
  (forall address limit cursor,
      urls (snd (list_emails env self address limit cursor w))
      = List.app (urls w) [base_url self ++ "/mailbox/" ++ quote address ++ "?limit="
                    ++ str_of_int limit
                    ++ match cursor with
                       | Some c => "&cursor=" ++ quote_plus c
                       | None => ""
                       end])
  /\ (forall address,
         urls (snd (delete_mailbox env self address w))
         = List.app (urls w) [base_url self ++ "/mailbox/" ++ quote address])
  /\ (forall address, no_reserved (quote address) = true)
  /\ (forall email_id,
         urls (snd (get_email env self email_id w))
         = List.app (urls w) [base_url self ++ "/email/" ++ email_id])
  /\ (forall email_id attachment_id,
         urls (snd (get_attachment env self email_id attachment_id w))
         = List.app (urls w) [base_url self ++ "/email/" ++ email_id ++ "/attachments/"
                       ++ attachment_id])
  /\ (forall email_id,
         urls (snd (delete_email env self email_id w))
         = List.app (urls w) [base_url self ++ "/email/" ++ email_id]).
Proof.
  repeat split; intros.
  - apply address_round_trip_urls.
  - rewrite delete_mailbox_run; cbn [snd]. now rewrite urls_after_request.
  - apply no_reserved_quote.
  - rewrite get_email_run; cbn [snd]. now rewrite urls_after_request.
  - rewrite get_attachment_run; cbn [snd]. now rewrite urls_after_request.
  - rewrite delete_email_run; cbn [snd]. now rewrite urls_after_request.
Qed.

(** C7. A listing response without [nextCursor] gives a page whose
    [next_cursor] is [None]; and a listing requested without a cursor
    has the query [limit=N] alone: no [cursor] parameter is sent. *)
Theorem absent_cursor (address : string) (limit : Z) (w : World) :
  urls (snd (list_emails env self address limit None w))
  = List.app (urls w) [base_url self ++ "/mailbox/" ++ quote address ++ "?limit="
                       ++ str_of_int limit]
  /\ (forall cursor content hdrs d data items emails total,
         answers env w (Response content hdrs (Loaded (PDict d))) ->
         lookup "nextCursor" d = None ->
         lookup "data" d = Some data ->
         iter data = Ok items ->
         comprehension summary_of items = Ok emails ->
         lookup "total" d = Some total ->
         fst (list_emails env self address limit cursor w)
         = Ok (PaginatedEmailList.mk emails PNone total)).
Proof.
  split.
  - rewrite address_round_trip_urls. now rewrite str_nil_r.
  - intros cursor content hdrs d data items emails total Hans Hcur Hdata Hiter Hmap Htot.
    rewrite list_emails_run; cbn [fst]. rewrite Hans.
    cbn [handle rbind json_of]. unfold list_emails_result.
    cbn [getitem get]. rewrite Hdata, Hcur, Htot. cbn [rbind].
    rewrite Hiter. cbn [rbind]. rewrite Hmap. reflexivity.
Qed.

(** C8. When the response is a JSON object without the optional field,
    [delete_email] gives [False], [delete_mailbox] gives [0], and
    [get_email] gives the mail with no attachments: the mapping is the
    one of the same response with an empty [attachments] list. *)
Theorem absent_fields_default (w : World) (content : string) (hdrs : headers)
    (d : list (string * pyval)) :
  answers env w (Response content hdrs (Loaded (PDict d))) ->
  (forall email_id,
      lookup "success" d = None ->
      fst (delete_email env self email_id w) = Ok (PBool false))
  /\ (forall address,
         lookup "deleted" d = None ->
         fst (delete_mailbox env self address w) = Ok (PInt 0))
  /\ (forall email_id,
         lookup "attachments" d = None ->
         fst (get_email env self email_id w)
         = get_email_result (PDict (("attachments", PList []) :: d)))
  /\ (forall email_id id sender to subject html text received received_at has_attachments,
         lookup "attachments" d = None ->
         lookup "id" d = Some id ->
         lookup "from" d = Some sender ->
         lookup "to" d = Some to ->
         lookup "subject" d = Some subject ->
         lookup "html" d = Some html ->
         lookup "text" d = Some text ->
         lookup "receivedAt" d = Some received ->
         received_at_of received = Ok received_at ->
         lookup "hasAttachments" d = Some has_attachments ->
         fst (get_email env self email_id w)
         = Ok (EmailDetail.mk id sender to subject html text received_at
                 has_attachments [])).
Proof.
  intros Hans. repeat split; intros.
  - rewrite delete_email_run; cbn [fst]. rewrite Hans.
    cbn [handle rbind json_of get]. now rewrite H.
  - rewrite delete_mailbox_run; cbn [fst]. rewrite Hans.
    cbn [handle rbind json_of get]. now rewrite H.
  - rewrite get_email_run; cbn [fst]. rewrite Hans.
    cbn [handle rbind json_of]. unfold get_email_result.
    cbn [get getitem lookup]. rewrite H. reflexivity.
  - rewrite get_email_run; cbn [fst]. rewrite Hans.
    cbn [handle rbind json_of]. unfold get_email_result.
    cbn [get getitem]. rewrite H, H0, H1, H2, H3, H4, H5, H6, H8.
    cbn [rbind iter comprehension]. now rewrite H7.
Qed.

End Requests.

(** C7, on an example: the page of [one_mail_server], whose response
    has no [nextCursor]. *)
Lemma absent_cursor_witness :
  fst (list_emails one_mail_server example_client "a+b@example.com" 20 None fresh)
  = Ok (PaginatedEmailList.mk [example_summary] PNone (PInt 1)).
Proof.
  apply (proj2 (absent_cursor one_mail_server example_client "a+b@example.com" 20 fresh)
           None "" [] [("data", PList [example_mail]); ("total", PInt 1)]
           (PList [example_mail]) [example_mail]).
  - intro req. reflexivity.
  - reflexivity.
  - reflexivity.
  - reflexivity.
  - reflexivity.
  - reflexivity.
Defined.

(** C3, counterexample.  An identifier with a slash goes into the path
    unescaped: the URL is not the one with the encoded identifier, and
    the identifier spreads over two path segments. *)
Lemma identifier_not_encoded :
  urls (snd (get_email refusing example_client "a/b" fresh))
  = ["https://api.vanish.host/email/a/b"]
  /\ urls (snd (get_email refusing example_client "a/b" fresh))
     <> [base_url example_client ++ "/email/" ++ quote "a/b"]
  /\ no_reserved "a/b" = false.
Proof. repeat split. discriminate. Qed.


(** ** The polling loop *)

Section Polling.

Variable env : Env.
Variable self : VanishClient.
Variable address : string.

Abbreviation own_timeout := (timeout self).
Abbreviation sent w := (after_request env (poll_request self address) own_timeout w).

Variables timeout interval initial_count : Z.
Variable start : Z.

Abbreviation pass := (poll_pass env self address timeout interval initial_count start).

Lemma list_emails_listing (w : World) :
  list_emails env self address 1 None w
  = (listing env self address (requests_made w), sent w).
Proof. apply list_emails_run. Qed.

(** Past the deadline the loop ends at once, with [None]. *)
Lemma pass_expired (w : World) :
  timeout <= clock w - start -> pass w = (Ok (Return None), w).
Proof.
  intros H. unfold poll_pass, bind, time.
  destruct (Z.ltb_spec (clock w - start) timeout); [lia | reflexivity].
Qed.

(** Before the deadline one pass is one check, and a sleep unless the
    check ends the poll. *)
Lemma pass_checks (w : World) :
  clock w - start < timeout ->
  pass w
  = match listing env self address (requests_made w) with
    | Raise e => (Raise e, sent w)
    | Ok page =>
        match new_mail page initial_count with
        | Raise e => (Raise e, sent w)
        | Ok found =>
            match found, PaginatedEmailList.data page with
            | true, first :: _ => (Ok (Return (Some first)), sent w)
            | _, _ =>
                if interval <? 0 then (Raise ValueError, sent w)
                else (Ok Continue, after_round env self address interval w)
            end
        end
    end.
Proof.
  intros H. unfold poll_pass, bind at 1, time.
  destruct (Z.ltb_spec (clock w - start) timeout); [|lia].
  unfold bind at 1. rewrite list_emails_listing.
  destruct (listing env self address (requests_made w)) as [page|e]; [|reflexivity].
  unfold bind at 1, lift at 1.
  destruct (new_mail page initial_count) as [found|e]; [|reflexivity].
  unfold after_round, bind, sleep, ret.
  destruct found, (PaginatedEmailList.data page); try reflexivity;
    destruct (interval <? 0); reflexivity.
Qed.

Abbreviation round w := (after_round env self address interval w).
Abbreviation rounds k w := (after_rounds env self address interval k w).
Abbreviation gone k n := (elapsed env interval k n).

Lemma requests_made_round (w : World) :
  requests_made (round w) = S (requests_made w).
Proof.
  unfold after_round, requests_made; cbn [trace after_request].
  rewrite !filter_app, !length_app. cbn. lia.
Qed.

Lemma clock_round (w : World) :
  clock (round w) = clock w + latency env (requests_made w) + interval.
Proof. reflexivity. Qed.

Lemma requests_made_rounds (k : nat) (w : World) :
  requests_made (rounds k w) = (requests_made w + k)%nat.
Proof.
  revert w; induction k as [|k IH]; intros w; cbn [after_rounds]; [lia|].
  rewrite IH, requests_made_round. lia.
Qed.

Lemma clock_rounds (k : nat) (w : World) :
  clock (rounds k w) = clock w + gone k (requests_made w).
Proof.
  revert w; induction k as [|k IH]; intros w; cbn [after_rounds elapsed]; [lia|].
  rewrite IH, requests_made_round, clock_round. lia.
Qed.

Lemma elapsed_S_r (k n : nat) :
  gone (S k) n = gone k n + latency env (n + k) + interval.
Proof.
  revert n; induction k as [|k IH]; intros n.
  - cbn. rewrite Nat.add_0_r. lia.
  - change (gone (S (S k)) n) with (latency env n + interval + gone (S k) (S n)).
    rewrite IH. cbn [elapsed]. replace (S n + k)%nat with (n + S k)%nat by lia. lia.
Qed.

Lemma elapsed_mono (j k n : nat) :
  0 <= interval -> (forall m, 0 <= latency env m) ->
  (j <= k)%nat -> gone j n <= gone k n.
Proof.
  intros Hi Hl Hjk. induction Hjk as [|k Hjk IH]; [lia|].
  rewrite elapsed_S_r. specialize (Hl (n + k)%nat). lia.
Qed.

(** A pass that finds no new mail sends one request and sleeps. *)
Lemma pass_no_mail (w : World) :
  0 <= interval ->
  clock w - start < timeout ->
  no_mail_yet env self address initial_count (requests_made w) ->
  pass w = (Ok Continue, round w).
Proof.
  intros Hi Ht (page & Hpage & Hnew).
  rewrite pass_checks by assumption. rewrite Hpage, Hnew.
  destruct (Z.ltb_spec interval 0); [lia | reflexivity].
Qed.

(** [k] passes without new mail, each begun before the deadline. *)
Lemma while_rounds (k fuel : nat) (w : World) :
  0 <= interval ->
  (forall j, (j < k)%nat ->
             no_mail_yet env self address initial_count (requests_made w + j)) ->
  (forall j, (j < k)%nat -> clock w - start + gone j (requests_made w) < timeout) ->
  while (k + fuel) pass w = while fuel pass (rounds k w).
Proof.
  intros Hi. revert w; induction k as [|k IH]; intros w Hno Ht; [reflexivity|].
  cbn [Nat.add while after_rounds].
  rewrite pass_no_mail; try assumption.
  - apply IH.
    + intros j Hj. rewrite requests_made_round.
      replace (S (requests_made w) + j)%nat with (requests_made w + S j)%nat by lia.
      apply Hno. lia.
    + intros j Hj. rewrite requests_made_round, clock_round.
      specialize (Ht (S j) ltac:(lia)). cbn [elapsed] in Ht. lia.
  - specialize (Ht O ltac:(lia)). cbn [elapsed] in Ht. lia.
  - rewrite <- (Nat.add_0_r (requests_made w)). apply Hno. lia.
Qed.

(** After them, a check that ends the poll ends it at once: the world
    is the one right after that request. *)
Lemma while_found (k fuel : nat) (w : World) page first rest :
  0 <= interval ->
  (forall j, (j < k)%nat ->
             no_mail_yet env self address initial_count (requests_made w + j)) ->
  (forall j, (j <= k)%nat -> clock w - start + gone j (requests_made w) < timeout) ->
  listing env self address (requests_made w + k) = Ok page ->
  new_mail page initial_count = Ok true ->
  PaginatedEmailList.data page = first :: rest ->
  (k < fuel)%nat ->
  while fuel pass w = Some (Ok (Some first), sent (rounds k w)).
Proof.
  intros Hi Hno Ht Hpage Hnew Hdata Hfuel.
  replace fuel with (k + S (fuel - S k))%nat by lia.
  rewrite while_rounds; try assumption; [|intros j Hj; apply Ht; lia].
  cbn [while]. rewrite pass_checks.
  - rewrite requests_made_rounds, Hpage, Hnew, Hdata. reflexivity.
  - rewrite clock_rounds. specialize (Ht k ltac:(lia)). lia.
Qed.

Lemma while_raises (k fuel : nat) (w : World) (e : exn) :
  0 <= interval ->
  (forall j, (j < k)%nat ->
             no_mail_yet env self address initial_count (requests_made w + j)) ->
  (forall j, (j <= k)%nat -> clock w - start + gone j (requests_made w) < timeout) ->
  listing env self address (requests_made w + k) = Raise e ->
  (k < fuel)%nat ->
  while fuel pass w = Some (Raise e, sent (rounds k w)).
Proof.
  intros Hi Hno Ht Hpage Hfuel.
  replace fuel with (k + S (fuel - S k))%nat by lia.
  rewrite while_rounds; try assumption; [|intros j Hj; apply Ht; lia].
  cbn [while]. rewrite pass_checks.
  - rewrite requests_made_rounds, Hpage. reflexivity.
  - rewrite clock_rounds. specialize (Ht k ltac:(lia)). lia.
Qed.

(** When every pass takes time the deadline is reached: fuel beyond the
    time left suffices, and a poll that never sees new mail ends in
    [None] at the first test past the deadline. *)
Lemma while_times_out (fuel : nat) (w : World) :
  0 <= interval ->
  (forall m, 0 < latency env m + interval) ->
  (forall j, clock w - start + gone j (requests_made w) < timeout ->
             no_mail_yet env self address initial_count (requests_made w + j)) ->
  (Z.to_nat (timeout - (clock w - start)) < fuel)%nat ->
  exists k,
    while fuel pass w = Some (Ok None, rounds k w)
    /\ timeout <= clock w - start + gone k (requests_made w)
    /\ (forall j, (j < k)%nat -> clock w - start + gone j (requests_made w) < timeout).
Proof.
  intros Hi Hl. revert w; induction fuel as [|fuel IH]; intros w Hno Hfuel; [lia|].
  destruct (Z.lt_ge_cases (clock w - start) timeout) as [Hlt|Hge].
  - assert (Hpass : pass w = (Ok Continue, round w)).
    { apply pass_no_mail; try lia.
      rewrite <- (Nat.add_0_r (requests_made w)). apply Hno. cbn [elapsed]. lia. }
    pose proof (Hl (requests_made w)) as Hl0.
    destruct (IH (round w)) as (k & Hrun & Hend & Hbefore).
    + intros j Hj. rewrite requests_made_round.
      replace (S (requests_made w) + j)%nat with (requests_made w + S j)%nat by lia.
      apply Hno. rewrite requests_made_round, clock_round in Hj. cbn [elapsed]. lia.
    + rewrite clock_round. lia.
    + exists (S k). cbn [while after_rounds]. rewrite Hpass. split; [exact Hrun|].
      rewrite requests_made_round, clock_round in Hend.
      split; [cbn [elapsed]; lia|].
      intros [|j] Hj; [cbn [elapsed]; lia|].
      specialize (Hbefore j ltac:(lia)).
      rewrite requests_made_round, clock_round in Hbefore. cbn [elapsed]. lia.
  - exists O. cbn [while after_rounds elapsed]. rewrite pass_expired by lia.
    repeat split; try lia.
Qed.

(** However the poll goes, each of its sleeps lasts [interval], and
    it ends less than one request and one sleep after the deadline. *)
Lemma while_bound (L : Z) (fuel : nat) (w : World) r w' :
  0 <= interval ->
  (forall m, 0 <= latency env m <= L) ->
  while fuel pass w = Some (r, w') ->
  exists evs,
    trace w' = (trace w ++ evs)%list
    /\ sleeps_last interval evs
    /\ (clock w' = clock w \/ clock w' - start < timeout + L + interval).
Proof.
  intros Hi Hl. revert w; induction fuel as [|fuel IH]; intros w Hrun; [discriminate|].
  cbn [while] in Hrun.
  destruct (Z.lt_ge_cases (clock w - start) timeout) as [Hlt|Hge].
  - pose proof (Hl (requests_made w)) as Hl0.
    assert (Hsent : forall r0, Some (r0, sent w) = Some (r, w') ->
              exists evs, trace w' = (trace w ++ evs)%list /\ sleeps_last interval evs
                /\ (clock w' = clock w \/ clock w' - start < timeout + L + interval)).
    { intros r0 [= _ <-]. eexists; split; [reflexivity|]. split.
      - repeat constructor.
      - right. cbn [after_request clock]. lia. }
    rewrite pass_checks in Hrun by assumption.
    destruct (listing env self address (requests_made w)) as [page|e]; [|eauto].
    destruct (new_mail page initial_count) as [found|e]; [|eauto].
    assert (Hsleep : match (if interval <? 0 then (Raise ValueError, sent w)
                            else (Ok Continue, round w))
                     with
                     | (Ok (Return a), w1) => Some (Ok a, w1)
                     | (Ok Continue, w1) => while fuel pass w1
                     | (Raise e, w1) => Some (Raise e, w1)
                     end = Some (r, w') ->
              exists evs, trace w' = (trace w ++ evs)%list /\ sleeps_last interval evs
                /\ (clock w' = clock w \/ clock w' - start < timeout + L + interval)).
    { destruct (Z.ltb_spec interval 0); [lia|]. intros Hrest.
      destruct (IH _ Hrest) as (evs & Htr & Hsl & Hck).
      exists (Sent (clock w) (poll_request self address) own_timeout
                :: Slept (clock w + latency env (requests_made w)) interval :: evs).
      split; [|split].
      - rewrite Htr. cbn [after_round after_request trace clock].
        now rewrite <- !app_assoc.
      - repeat constructor. exact Hsl.
      - right. rewrite clock_round in Hck. lia. }
    destruct found; [|exact (Hsleep Hrun)].
    destruct (PaginatedEmailList.data page); [exact (Hsleep Hrun) | eauto].
  - rewrite pass_expired in Hrun by lia. injection Hrun as _ <-.
    exists []. rewrite app_nil_r. repeat split; [constructor | now left].
Qed.

(** When every pass takes time the loop ends, whatever the checks give. *)
Lemma while_returns (fuel : nat) (w : World) :
  (forall m, 0 < latency env m + interval) ->
  (Z.to_nat (timeout - (clock w - start)) < fuel)%nat ->
  exists r w', while fuel pass w = Some (r, w').
Proof.
  intros Hl. revert w; induction fuel as [|fuel IH]; intros w Hfuel; [lia|].
  cbn [while].
  destruct (Z.lt_ge_cases (clock w - start) timeout) as [Hlt|Hge].
  - pose proof (Hl (requests_made w)) as Hl0.
    rewrite pass_checks by assumption.
    destruct (listing env self address (requests_made w)) as [page|e]; [|eauto].
    destruct (new_mail page initial_count) as [found|e]; [|eauto].
    assert (Hsleep : exists r w',
               match (if interval <? 0 then (Raise ValueError, sent w)
                      else (Ok Continue, round w))
               with
               | (Ok (Return a), w1) => Some (Ok a, w1)
               | (Ok Continue, w1) => while fuel pass w1
               | (Raise e, w1) => Some (Raise e, w1)
               end = Some (r, w')).
    { destruct (Z.ltb_spec interval 0); [eauto|].
      apply IH. rewrite clock_round. lia. }
    destruct found; [|exact Hsleep].
    destruct (PaginatedEmailList.data page); [exact Hsleep | eauto].
  - rewrite pass_expired by lia. eauto.
Qed.

End Polling.

(** ** What a poll does *)

Section PollingClaims.

Variable env : Env.
Variable self : VanishClient.
Variable address : string.

Abbreviation request_sent w :=
  (after_request env (poll_request self address) (timeout self) w).
Abbreviation request_event t := (Sent t (poll_request self address) (timeout self)).

Variables timeout interval initial_count : Z.

Abbreviation poll fuel w :=
  (poll_for_emails env fuel self address timeout interval initial_count w).
Abbreviation no_mail n := (no_mail_yet env self address initial_count n).

(** A check that finds nothing new, in the words of the specification,
    fails the test of the loop. *)
Lemma nothing_new_fails_test (n : nat) :
  nothing_new env self address initial_count n -> no_mail n.
Proof.
  intros (page & count & Hpage & Htotal & Hnot). exists page. split; [exact Hpage|].
  unfold new_mail. rewrite Htotal; cbn [gt rbind]. destruct Hnot as [Hle | Hempty].
  - destruct (Z.ltb_spec initial_count count); [lia | reflexivity].
  - rewrite Hempty. now rewrite andb_false_r.
Qed.

(** A count above [initial_count] passes it, when there is an item. *)
Lemma count_above_passes_test (page : PaginatedEmailList.t) (count : Z) first rest :
  PaginatedEmailList.total page = PInt count ->
  initial_count < count ->
  PaginatedEmailList.data page = first :: rest ->
  new_mail page initial_count = Ok true.
Proof.
  intros Htotal Hgt Hdata. unfold new_mail. rewrite Htotal, Hdata; cbn [gt rbind].
  destruct (Z.ltb_spec initial_count count); [reflexivity | lia].
Qed.

(** C1. The poll checks the mailbox with [list_emails(address, limit=1)]
    again and again.  If the first [k] checks find nothing new (each
    page has a count that is not above [initial_count], or no item) and
    check [k], begun before the deadline, gives a page whose count is
    strictly greater than [initial_count] and whose [data] is not empty,
    the poll returns the first item of that page, and the world is the
    one right after that request: [k] sleeps, none after the last check.
    If no check begun before the deadline finds anything new, the poll
    returns [None], at the first test of the clock at or past the
    deadline; fuel beyond the timeout suffices for that whenever each
    pass takes time. *)
Theorem poll_for_emails_result (w : World) :
  0 <= interval ->
  (forall m, 0 <= latency env m) ->
  (forall k page count first rest fuel,
      (forall j, (j < k)%nat ->
                 nothing_new env self address initial_count (requests_made w + j)%nat) ->
      elapsed env interval k (requests_made w) < timeout ->
      listing env self address (requests_made w + k) = Ok page ->
      PaginatedEmailList.total page = PInt count ->
      initial_count < count ->
      PaginatedEmailList.data page = first :: rest ->
      (k < fuel)%nat ->
      poll fuel w
      = Some (Ok (Some first),
              request_sent (after_rounds env self address interval k w)))
  /\ ((forall m, 0 < latency env m + interval) ->
      (forall j, elapsed env interval j (requests_made w) < timeout ->
                 nothing_new env self address initial_count (requests_made w + j)%nat) ->
      forall fuel, (Z.to_nat timeout < fuel)%nat ->
      exists k,
        poll fuel w = Some (Ok None, after_rounds env self address interval k w)
        /\ timeout <= elapsed env interval k (requests_made w)
        /\ (forall j, (j < k)%nat -> elapsed env interval j (requests_made w) < timeout)).
Proof.
  intros Hi Hl. split.
  - intros k page count first rest fuel Hno Ht Hpage Htotal Hgt Hdata Hfuel.
    unfold poll_for_emails.
    apply (while_found env self address timeout interval initial_count (clock w)
             k fuel w page first rest); try assumption.
    + intros j Hj. apply nothing_new_fails_test. now apply Hno.
    + intros j Hj.
      pose proof (elapsed_mono env interval j k (requests_made w) Hi Hl Hj). lia.
    + exact (count_above_passes_test page count first rest Htotal Hgt Hdata).
  - intros Hpos Hno fuel Hfuel. unfold poll_for_emails.
    destruct (while_times_out env self address timeout interval initial_count
                (clock w) fuel w Hi Hpos) as (k & Hrun & Hend & Hbefore).
    + intros j Hj. apply nothing_new_fails_test. apply Hno. lia.
    + replace (timeout - (clock w - clock w)) with timeout by lia. exact Hfuel.
    + exists k. split; [exact Hrun|]. split; [lia|].
      intros j Hj. specialize (Hbefore j Hj). lia.
Qed.

(** C10. When a check raises, the poll raises the same exception at
    once: the world is the one right after the failed request, with no
    further request and no sleep after it.  Only checks that came back
    without new mail were followed by another. *)
Theorem poll_for_emails_raises (w : World) (k fuel : nat) (e : exn) :
  0 <= interval ->
  (forall m, 0 <= latency env m) ->
  (forall j, (j < k)%nat -> no_mail (requests_made w + j)%nat) ->
  elapsed env interval k (requests_made w) < timeout ->
  listing env self address (requests_made w + k) = Raise e ->
  (k < fuel)%nat ->
  poll fuel w
  = Some (Raise e, request_sent (after_rounds env self address interval k w))
  /\ requests_made (request_sent (after_rounds env self address interval k w))
     = S (requests_made w + k)
  /\ trace (request_sent (after_rounds env self address interval k w))
     = (trace (after_rounds env self address interval k w)
        ++ [request_event (clock (after_rounds env self address interval k w))])%list.
Proof.
  intros Hi Hl Hno Ht He Hfuel. split; [|split].
  - unfold poll_for_emails. apply while_raises; try assumption.
    intros j Hj. pose proof (elapsed_mono env interval j k (requests_made w) Hi Hl Hj). lia.
  - now rewrite requests_made_after_request, requests_made_rounds.
  - reflexivity.
Qed.

(** C2, as the code has it.  Every sleep of the poll lasts the whole
    [interval], whatever time is left; the poll ends either without the
    clock having moved or less than one request and one interval after
    the deadline; and it does end whenever each pass takes time (a
    positive interval, or requests that take time). *)
Theorem poll_for_emails_deadline (L : Z) (w : World) :
  0 <= interval ->
  (forall m, 0 <= latency env m <= L) ->
  (forall fuel r w',
      poll fuel w = Some (r, w') ->
      exists evs,
        trace w' = (trace w ++ evs)%list
        /\ sleeps_last interval evs
        /\ (clock w' = clock w \/ clock w' - clock w < timeout + L + interval))
  /\ ((forall m, 0 < latency env m + interval) ->
      forall fuel, (Z.to_nat timeout < fuel)%nat ->
      exists r w', poll fuel w = Some (r, w')).
Proof.
  intros Hi Hl. split.
  - intros fuel r w' Hrun.
    exact (while_bound env self address timeout interval initial_count (clock w)
             L fuel w r w' Hi Hl Hrun).
  - intros Hpos fuel Hfuel. unfold poll_for_emails.
    apply while_returns; try assumption.
    replace (timeout - (clock w - clock w)) with timeout by lia. exact Hfuel.
Qed.

End PollingClaims.

(** ** Failures *)

(** An HTTP error whose body is a JSON object: the message is the value
    under [error] when there is one, and [str(e)] otherwise. *)
Lemma handle_http_error_object (raw : bool) (code : Z) (msg : string)
    (d : list (string * pyval)) :
  handle raw (HTTPError code msg (Loaded (PDict d)))
  = Raise (VanishError (match lookup "error" d with
                        | Some v => v
                        | None => PStr (str_HTTPError code msg)
                        end) (Some code)).
Proof. cbn. destruct (lookup "error" d); reflexivity. Qed.

(** An HTTP error whose body does not decode: the message is [str(e)]. *)
Lemma handle_http_error_undecodable (raw : bool) (code : Z) (msg : string) (body : decoded) :
  body = NotJSON \/ body = NotUTF8 ->
  handle raw (HTTPError code msg body)
  = Raise (VanishError (PStr (str_HTTPError code msg)) (Some code)).
Proof. intros [-> | ->]; reflexivity. Qed.

Example http_404_mailbox_not_found :
  handle false (HTTPError 404 "Not Found"
                  (Loaded (PDict [("error", PStr "mailbox not found")])))
  = Raise (VanishError (PStr "mailbox not found") (Some 404)).
Proof. reflexivity. Qed.

Example http_502_not_json :
  handle false (HTTPError 502 "Bad Gateway" NotJSON)
  = Raise (VanishError (PStr "HTTP Error 502: Bad Gateway") (Some 502)).
Proof. reflexivity. Qed.

(** An HTTP error whose body is JSON but not an object: [error_body.get]
    does not exist, and the [AttributeError] is not among the exceptions
    the handler catches. *)
Lemma handle_http_error_not_object (raw : bool) (code : Z) (msg : string) (v : pyval) :
  (forall d, v <> PDict d) ->
  handle raw (HTTPError code msg (Loaded v)) = Raise AttributeError.
Proof. intros H. destruct v; try reflexivity. now destruct (H d). Qed.

(** C4, where the code departs from it.  A 500 response whose body is
    the JSON array [[]] makes the operations raise [AttributeError]: no
    [VanishError], no message, no status code. *)
Theorem http_error_array_body :
  handle false (HTTPError 500 "Internal Server Error" (Loaded (PList [])))
  = Raise AttributeError
  /\ fst (get_domains failing_server example_client fresh) = Raise AttributeError
  /\ fst (list_emails failing_server example_client "a@b.c" 20 None fresh)
     = Raise AttributeError
  /\ fst (delete_mailbox failing_server example_client "a@b.c" fresh)
     = Raise AttributeError
  /\ option_map fst (poll_for_emails failing_server 1 example_client "a@b.c" 60 5 0 fresh)
     = Some (Raise AttributeError).
Proof. repeat split. Qed.

Section Failures.

Variable env : Env.
Variable self : VanishClient.

Abbreviation poll_sent address w :=
  (after_request env (poll_request self address) (timeout self) w).

(** X25. What urllib reports as a [URLError] (no such host, connection
    refused, a connect that times out) is wrapped: every operation
    raises a [VanishError] whose message is [Connection error: ]
    followed by the reason, and whose status code is [None]; a poll
    raises it at its first check. *)
Theorem connection_errors (w : World) (reason : string) :
  answers env w (URLError reason) ->
  let e := VanishError (PStr ("Connection error: " ++ reason)) None in
  fst (get_domains env self w) = Raise e
  /\ (forall domain prefix, fst (generate_email env self domain prefix w) = Raise e)
  /\ (forall address limit cursor,
         fst (list_emails env self address limit cursor w) = Raise e)
  /\ (forall email_id, fst (get_email env self email_id w) = Raise e)
  /\ (forall email_id attachment_id,
         fst (get_attachment env self email_id attachment_id w) = Raise e)
  /\ (forall email_id, fst (delete_email env self email_id w) = Raise e)
  /\ (forall address, fst (delete_mailbox env self address w) = Raise e)
  /\ (forall address timeout interval initial_count fuel,
         0 < timeout ->
         poll_for_emails env (S fuel) self address timeout interval initial_count w
         = Some (Raise e, poll_sent address w)).
Proof.
  intros Hans e. repeat split; intros.
  - rewrite get_domains_run; cbn [fst]. now rewrite Hans.
  - destruct (generate_email_run env self domain prefix w) as [req ->]; cbn [fst].
    now rewrite Hans.
  - rewrite list_emails_run; cbn [fst]. now rewrite Hans.
  - rewrite get_email_run; cbn [fst]. now rewrite Hans.
  - rewrite get_attachment_run; cbn [fst]. now rewrite Hans.
  - rewrite delete_email_run; cbn [fst]. now rewrite Hans.
  - rewrite delete_mailbox_run; cbn [fst]. now rewrite Hans.
  - unfold poll_for_emails; cbn [while].
    rewrite pass_checks by lia. unfold listing. now rewrite Hans.
Qed.

(** Any other exception of [urlopen] is caught by neither handler of
    [_request]: every operation raises it as it is. *)
Lemma other_errors_pass_through (w : World) (e : exn) :
  answers env w (OtherError e) ->
  fst (get_domains env self w) = Raise e
  /\ (forall domain prefix, fst (generate_email env self domain prefix w) = Raise e)
  /\ (forall address limit cursor,
         fst (list_emails env self address limit cursor w) = Raise e)
  /\ (forall email_id, fst (get_email env self email_id w) = Raise e)
  /\ (forall email_id attachment_id,
         fst (get_attachment env self email_id attachment_id w) = Raise e)
  /\ (forall email_id, fst (delete_email env self email_id w) = Raise e)
  /\ (forall address, fst (delete_mailbox env self address w) = Raise e)
  /\ (forall address timeout interval initial_count fuel,
         0 < timeout ->
         poll_for_emails env (S fuel) self address timeout interval initial_count w
         = Some (Raise e, poll_sent address w)).
Proof.
  intros Hans. repeat split; intros.
  - rewrite get_domains_run; cbn [fst]. now rewrite Hans.
  - destruct (generate_email_run env self domain prefix w) as [req ->]; cbn [fst].
    now rewrite Hans.
  - rewrite list_emails_run; cbn [fst]. now rewrite Hans.
  - rewrite get_email_run; cbn [fst]. now rewrite Hans.
  - rewrite get_attachment_run; cbn [fst]. now rewrite Hans.
  - rewrite delete_email_run; cbn [fst]. now rewrite Hans.
  - rewrite delete_mailbox_run; cbn [fst]. now rewrite Hans.
  - unfold poll_for_emails; cbn [while].
    rewrite pass_checks by lia. unfold listing. now rewrite Hans.
Qed.

End Failures.

(** X25, on an example: nobody listens. *)
Lemma connection_errors_witness :
  fst (get_domains refusing example_client fresh)
  = Raise (VanishError (PStr "Connection error: [Errno 111] Connection refused") None).
Proof.
  apply (connection_errors refusing example_client fresh "[Errno 111] Connection refused").
  intro req. reflexivity.
Defined.

(** C5, where the code departs from it.  A server accepts the
    connection and does not answer before the client's timeout runs
    out.  urllib raises the [TimeoutError] of the read as it is, not as
    a [URLError], and [_request] has no handler for it: every operation
    raises [TimeoutError], not a [VanishError] with a connection-error
    message. *)
Theorem response_timeout_not_wrapped :
  handle false (OtherError TimeoutError) = Raise TimeoutError
  /\ fst (get_domains stalled_server example_client fresh) = Raise TimeoutError
  /\ fst (generate_email stalled_server example_client None None fresh)
     = Raise TimeoutError
  /\ fst (list_emails stalled_server example_client "a@b.c" 20 None fresh)
     = Raise TimeoutError
  /\ fst (get_email stalled_server example_client "m1" fresh) = Raise TimeoutError
  /\ fst (get_attachment stalled_server example_client "m1" "a1" fresh)
     = Raise TimeoutError
  /\ fst (delete_email stalled_server example_client "m1" fresh) = Raise TimeoutError
  /\ fst (delete_mailbox stalled_server example_client "a@b.c" fresh)
     = Raise TimeoutError
  /\ option_map fst (poll_for_emails stalled_server 1 example_client "a@b.c" 60 5 0 fresh)
     = Some (Raise TimeoutError).
Proof. repeat split. Qed.

(** ** The claims on examples *)

(** C8, on an example: a mail whose response has no [attachments]. *)
Lemma absent_fields_default_witness :
  fst (get_email detail_server example_client "m1" fresh)
  = Ok (EmailDetail.mk (PStr "m1") (PStr "alice@example.com")
          (PList [PStr "a+b@example.com"]) (PStr "Hi") (PStr "<p>Hello</p>")
          (PStr "Hello") (mk_datetime 2024 1 15 10 30 0 0 utc) (PBool false) []).
Proof.
  refine (proj2 (proj2 (proj2
            (absent_fields_default detail_server example_client fresh "" [] example_detail _)))
            "m1" _ _ _ _ _ _ (PStr "2024-01-15T10:30:00Z") _ _ _ _ _ _ _ _ _ _ _ _).
  - intro req. reflexivity.
  - reflexivity.
  - reflexivity.
  - reflexivity.
  - reflexivity.
  - reflexivity.
  - reflexivity.
  - reflexivity.
  - reflexivity.
  - reflexivity.
  - reflexivity.
Defined.

(** C1, on an example: a mailbox that holds one mail, polled with an
    initial count of one.  The first two checks show that mail and the
    count one; the third shows the new mail and the count two. *)
Lemma poll_for_emails_result_witness :
  poll_for_emails busy_box 5 example_client "a@b.c" 60 5 1 fresh
  = Some (Ok (Some second_summary),
          after_request busy_box (poll_request example_client "a@b.c") 30
            (after_rounds busy_box example_client "a@b.c" 5 2 fresh)).
Proof.
  refine (proj1 (poll_for_emails_result busy_box example_client "a@b.c" 60 5 1
                   fresh _ _)
            2%nat (PaginatedEmailList.mk [second_summary] PNone (PInt 2)) 2
            second_summary [] 5%nat _ _ _ _ _ _ _).
  - lia.
  - intro m. cbn. lia.
  - intros j Hj. exists (PaginatedEmailList.mk [example_summary] PNone (PInt 1)), 1.
    destruct j as [|[|j]]; [| |lia]; (split; [reflexivity|]); (split; [reflexivity|]);
      left; lia.
  - vm_compute. reflexivity.
  - reflexivity.
  - reflexivity.
  - lia.
  - reflexivity.
  - lia.
Defined.

(** C10, on an example: the server breaks down at the second check. *)
Lemma poll_for_emails_raises_witness :
  poll_for_emails breaking_box 5 example_client "a@b.c" 60 5 0 fresh
  = Some (Raise (VanishError (PStr "HTTP Error 503: Service Unavailable") (Some 503)),
          after_request breaking_box (poll_request example_client "a@b.c") 30
            (after_rounds breaking_box example_client "a@b.c" 5 1 fresh)).
Proof.
  refine (proj1 (poll_for_emails_raises breaking_box example_client "a@b.c" 60 5 0 fresh
                   1%nat 5%nat _ _ _ _ _ _ _)).
  - lia.
  - intro m. cbn. lia.
  - intros j Hj. exists (PaginatedEmailList.mk [] PNone (PInt 0)).
    destruct j as [|j]; [split; reflexivity | lia].
  - vm_compute. reflexivity.
  - reflexivity.
  - lia.
Defined.

(** C2, on an example: ten ticks of timeout, checks every hundred. *)
Lemma poll_for_emails_deadline_witness :
  exists r w', poll_for_emails slow_empty_box 11 example_client "a@b.c" 10 100 0 fresh
               = Some (r, w').
Proof.
  refine (proj2 (poll_for_emails_deadline slow_empty_box example_client "a@b.c" 10 100 0
                   30 fresh _ _) _ 11%nat _).
  - lia.
  - intro m. cbn. lia.
  - intro m. cbn. lia.
  - vm_compute. lia.
Defined.

(** C2, counterexample.  With a timeout of 10 and an interval of 100 the
    one sleep of the poll starts at 0 and lasts 100, ten times what is
    left; and when the request takes 30 the poll ends at 130, past the
    timeout and one interval. *)
Lemma final_sleep_not_bounded :
  (exists w', poll_for_emails empty_box 2 example_client "a@b.c" 10 100 0 fresh
              = Some (Ok None, w')
              /\ In (Slept 0 100) (trace w')
              /\ ~ sleeps_within (0 + 10) w')
  /\ (exists w', poll_for_emails slow_empty_box 2 example_client "a@b.c" 10 100 0 fresh
                 = Some (Ok None, w')
                 /\ clock w' = 130
                 /\ ~ clock w' <= 0 + 10 + 100).
Proof.
  split; eexists; (split; [reflexivity|]); cbn [trace clock]; split.
  - right. left. reflexivity.
  - unfold sleeps_within; cbn [trace]. intros H.
    inversion H as [|? ? _ H1]; subst. inversion H1 as [|? ? H2 _]; subst.
    vm_compute in H2. now apply H2.
  - reflexivity.
  - intros H. vm_compute in H. now apply H.
Qed.

(** ** Timestamps *)

Lemma length_app_str (s t : string) :
  String.length (s ++ t) = (String.length s + String.length t)%nat.
Proof. induction s as [|c s IH]; cbn; [reflexivity | now rewrite IH]. Qed.




Lemma replace_suffix (old : ascii) (new s : string) :
  char_in old s = false ->
  replace old new (s ++ String old EmptyString) = s ++ new.
Proof.
  unfold char_in. induction s as [|c s IH]; cbn; intros H.
  - rewrite Ascii.eqb_refl. apply str_nil_r.
  - apply orb_false_elim in H as [Hc Hs].
    rewrite Ascii.eqb_sym, Hc. now rewrite IH.
Qed.


(** *** Reading a text with something after it *)












(** *** The time, with an offset after it *)












(** *** Digits *)

Lemma digit_char_spec (n : Z) :
  0 <= n < 10 -> is_digit (digit_char n) = true /\ digit_value (digit_char n) = n.
Proof.
  intros H. unfold digit_char. rewrite <- (Z2Nat.id n) at 3 by lia.
  assert (Hk : (Z.to_nat n < 10)%nat) by lia.
  generalize dependent (Z.to_nat n). clear H. intros k Hk.
  do 10 (destruct k as [|k]; [split; reflexivity|]). lia.
Qed.

Lemma is_digit_char (n : Z) : 0 <= n < 10 -> is_digit (digit_char n) = true.
Proof. intros H. apply digit_char_spec, H. Qed.

Lemma digit_value_char (n : Z) : 0 <= n < 10 -> digit_value (digit_char n) = n.
Proof. intros H. apply digit_char_spec, H. Qed.

Lemma digit_eqb (c k : ascii) :
  is_digit c = true -> is_digit k = false -> Ascii.eqb c k = false.
Proof.
  intros Hc Hk. destruct (Ascii.eqb_spec c k) as [->|]; [congruence | reflexivity].
Qed.

(** A digit is none of the bytes an offset starts with. *)
Lemma digit_no_tz (c : ascii) :
  is_digit c = true -> Ascii.eqb c "Z" || Ascii.eqb c "+" || Ascii.eqb c "-" = false.
Proof.
  intros H. now rewrite !(digit_eqb c _ H) by reflexivity.
Qed.

Lemma find_tz_digits (ds : list Z) :
  Forall (fun d => 0 <= d < 10) ds -> find_tz (digits_string ds) = None.
Proof.
  induction 1 as [|d ds Hd _ IH]; cbn [digits_string find_tz]; [reflexivity|].
  rewrite digit_no_tz by now apply is_digit_char. now rewrite IH.
Qed.

Lemma skip_digits_all (ds : list Z) :
  Forall (fun d => 0 <= d < 10) ds -> skip_digits (digits_string ds) = "".
Proof.
  induction 1 as [|d ds Hd _ IH]; cbn [digits_string skip_digits]; [reflexivity|].
  now rewrite is_digit_char.
Qed.

(** The fraction of a second: its first six digits are the
    microseconds. *)
Lemma parse_fraction_digits (ds : list Z) (next : ascii) :
  ds <> [] ->
  Forall (fun d => 0 <= d < 10) ds ->
  parse_fraction (digits_string ds) next = Ok (micros ds, negb (Ascii.eqb next nul)).
Proof.
  intros Hne Hds. unfold parse_fraction, micros.
  destruct ds as [|a [|b [|c [|d [|e [|f rest]]]]]]; [now destruct Hne| | | | | |];
    repeat match goal with
           | H : Forall _ (_ :: _) |- _ => inversion H; clear H; subst
           end;
    cbn [digits_string String.length Nat.min parse_digits List.app firstn fold_left];
    try rewrite Nat.min_0_r;
    cbn [parse_digits];
    rewrite ?is_digit_char, ?digit_value_char by assumption;
    try rewrite skip_digits_all by assumption;
    cbn [skip_digits Nat.sub];
    f_equal; f_equal;
    match goal with
    | |- context [10 ^ Z.of_nat ?k] =>
        let v := eval vm_compute in (10 ^ Z.of_nat k) in
        change (10 ^ Z.of_nat k) with v
    end; lia.
Qed.

(** *** Calendar dates *)

Ltac split_digits D :=
  cbn [forallb] in D;
  repeat match type of D with
         | _ && _ = true => apply andb_prop in D; destruct D as [? D]
         end.

Ltac use_digits :=
  repeat match goal with
         | H : is_digit ?c = true |- context [is_digit ?c] => rewrite H
         | H : is_digit ?c = true |- context [Ascii.eqb ?c ?k] =>
             rewrite (digit_eqb c k H eq_refl)
         end.

Ltac read_date :=
  repeat (progress
            (cbn [String.length Nat.ltb Nat.leb Nat.eqb char_at String.get Ascii.eqb Bool.eqb
                  andb negb parse_digits drop rbind];
             use_digits)).

Section Calendar.

Variables y1 y2 y3 y4 m1 m2 d1 d2 separator : ascii.
Variable t : string.

Hypothesis D : forallb is_digit [y1; y2; y3; y4; m1; m2; d1; d2] = true.
Hypothesis Hsep : (nat_of_ascii separator < 128)%nat.

Let v2 (a b : ascii) : Z := 10 * digit_value a + digit_value b.

Let read : result datetime :=
  let? '(h, mi, s, us, tz) := _parse_isoformat_time t in
  check_fields (mk_datetime (100 * v2 y1 y2 + v2 y3 y4) (v2 m1 m2) (v2 d1 d2)
                  h mi s us tz).

Lemma separator_width_ascii : separator_width separator = 1%nat.
Proof.
  unfold separator_width. now destruct (Nat.ltb_spec (nat_of_ascii separator) 128); [|lia].
Qed.

(** [YYYY-MM-DD], one character, and the time. *)
Lemma fromisoformat_extended :
  fromisoformat
    (String y1 (String y2 (String y3 (String y4 (String "-" (String m1 (String m2
    (String "-" (String d1 (String d2 (String separator t)))))))))))
  = read.
Proof.
  split_digits D. subst read v2.
  unfold fromisoformat, _find_isoformat_datetime_separator, _parse_isoformat_date.
  read_date.
  rewrite separator_width_ascii. cbn [Nat.add drop].
  destruct (_parse_isoformat_time t) as [[[[[h mi] s] us] tz]|]; cbn [rbind];
    [|reflexivity].
  f_equal. f_equal; lia.
Qed.

(** [YYYYMMDD], one character, and the time. *)
Lemma fromisoformat_basic :
  fromisoformat
    (String y1 (String y2 (String y3 (String y4 (String m1 (String m2
    (String d1 (String d2 (String separator t)))))))))
  = read.
Proof.
  split_digits D. subst read v2.
  unfold fromisoformat, _find_isoformat_datetime_separator, _parse_isoformat_date.
  read_date.
  rewrite separator_width_ascii. cbn [Nat.add drop].
  destruct (_parse_isoformat_time t) as [[[[[h mi] s] us] tz]|]; cbn [rbind];
    [|reflexivity].
  f_equal. f_equal; lia.
Qed.

End Calendar.

(** *** Times of day *)

(** A time in which nothing starts an offset is read to its end. *)
Lemma parse_time_no_tz (t : string) :
  t <> "" ->
  find_tz t = None ->
  _parse_isoformat_time t
  = let? '(h, m, s, us, trailing) := _parse_hh_mm_ss_ff t nul in
    if (trailing : bool) then Raise ValueError else Ok (h, m, s, us, None).
Proof.
  intros Hne Htz. unfold _parse_isoformat_time. rewrite Htz.
  destruct t; [now destruct Hne | reflexivity].
Qed.

Ltac no_tz :=
  cbn [append find_tz]; use_digits;
  cbn [Ascii.eqb Bool.eqb andb orb option_map].

Ltac read_time :=
  unfold _parse_hh_mm_ss_ff;
  repeat (progress
            (cbn [_parse_hh_mm_ss parse_digits Ascii.eqb Bool.eqb andb orb
                  negb rbind nth append];
             use_digits)).

Section Times.

Variables h1 h2 i1 i2 s1 s2 : ascii.

Hypothesis Dh : forallb is_digit [h1; h2] = true.
Hypothesis Di : forallb is_digit [i1; i2] = true.
Hypothesis Ds : forallb is_digit [s1; s2] = true.

Let v2 (a b : ascii) : Z := 10 * digit_value a + digit_value b.

Lemma time_to_hours :
  _parse_isoformat_time (String h1 (String h2 "")) = Ok (v2 h1 h2, 0, 0, 0, None).
Proof.
  split_digits Dh. subst v2.
  rewrite parse_time_no_tz by (discriminate || (no_tz; reflexivity)).
  read_time. reflexivity.
Qed.

Lemma time_to_minutes (basic : bool) :
  _parse_isoformat_time
    (String h1 (String h2 ((if basic then "" else ":") ++ String i1 (String i2 ""))))
  = Ok (v2 h1 h2, v2 i1 i2, 0, 0, None).
Proof.
  split_digits Dh. split_digits Di. subst v2.
  destruct basic;
    (rewrite parse_time_no_tz by (discriminate || (no_tz; reflexivity)));
    read_time; reflexivity.
Qed.

Lemma time_to_seconds (basic : bool) :
  _parse_isoformat_time
    (String h1 (String h2 ((if basic then "" else ":") ++ String i1 (String i2
       ((if basic then "" else ":") ++ String s1 (String s2 ""))))))
  = Ok (v2 h1 h2, v2 i1 i2, v2 s1 s2, 0, None).
Proof.
  split_digits Dh. split_digits Di. split_digits Ds. subst v2.
  destruct basic;
    (rewrite parse_time_no_tz by (discriminate || (no_tz; reflexivity)));
    read_time; reflexivity.
Qed.

Lemma time_to_fraction (basic comma : bool) (ds : list Z) :
  ds <> [] ->
  Forall (fun d => 0 <= d < 10) ds ->
  _parse_isoformat_time
    (String h1 (String h2 ((if basic then "" else ":") ++ String i1 (String i2
       ((if basic then "" else ":") ++ String s1 (String s2
          ((if comma then "," else ".") ++ digits_string ds)))))))
  = Ok (v2 h1 h2, v2 i1 i2, v2 s1 s2, micros ds, None).
Proof.
  intros Hne Hds. split_digits Dh. split_digits Di. split_digits Ds. subst v2.
  pose proof (parse_fraction_digits ds nul Hne Hds) as Hfrac.
  pose proof (find_tz_digits ds Hds) as Htz.
  rewrite parse_time_no_tz
    by (destruct basic, comma; (discriminate || (no_tz; rewrite Htz; reflexivity))).
  destruct ds as [|d ds']; [now destruct Hne|].
  cbn [digits_string] in Hfrac |- *.
  destruct basic, comma; read_time; rewrite Hfrac; reflexivity.
Qed.

End Times.

(** *** Every layout *)

Ltac digit_range := Z.to_euclidean_division_equations; lia.

Lemma check_fields_ranges (dt dt' : datetime) :
  check_fields dt = Ok dt' ->
  1 <= year dt <= 9999 /\ 1 <= month dt <= 12 /\ 1 <= day dt <= 31
  /\ 0 <= hour dt <= 23 /\ 0 <= minute dt <= 59 /\ 0 <= second dt <= 59
  /\ 0 <= microsecond dt <= 999999.
Proof.
  unfold check_fields. destruct (_ && _) eqn:E; [|intros H; inversion H]. intros _.
  repeat (apply andb_prop in E; destruct E as [E ?]).
  assert (days_in_month (year dt) (month dt) <= 31).
  { unfold days_in_month. repeat destruct (_ =? _)%Z; try destruct (is_leap _); cbn; lia. }
  lia.
Qed.

Lemma micros_range (ds : list Z) :
  Forall (fun d => 0 <= d < 10) ds -> 0 <= micros ds <= 999999.
Proof.
  intros Hds. unfold micros.
  destruct ds as [|a [|b [|c [|d [|e [|f rest]]]]]];
    repeat match goal with
           | H : Forall _ (_ :: _) |- _ => inversion H; clear H; subst
           end;
    cbn [List.app firstn fold_left]; lia.
Qed.

(** What a layout shows is a valid date and time when the whole is. *)
Lemma check_fields_shown (upto : precision) (dt : datetime) :
  check_fields dt = Ok dt ->
  fraction_digits upto ->
  check_fields (shown upto dt) = Ok (shown upto dt).
Proof.
  intros Hok Hfrac. pose proof (check_fields_ranges _ _ Hok) as R.
  unfold check_fields in *.
  destruct (_ && _) eqn:E in Hok; [|discriminate Hok].
  repeat (apply andb_prop in E; destruct E as [E ?]).
  assert (Hus : 0 <= microsecond (shown upto dt) <= 999999).
  { destruct upto as [| | |comma ds]; cbn [shown microsecond]; try lia.
    apply micros_range, Hfrac. }
  assert (Hmi : 0 <= minute (shown upto dt) <= 59) by (destruct upto; cbn; lia).
  assert (Hs : 0 <= second (shown upto dt) <= 59) by (destruct upto; cbn; lia).
  replace (year (shown upto dt)) with (year dt) by reflexivity.
  replace (month (shown upto dt)) with (month dt) by reflexivity.
  replace (day (shown upto dt)) with (day dt) by reflexivity.
  replace (hour (shown upto dt)) with (hour dt) by reflexivity.
  repeat match goal with
         | H : Z.leb _ _ = true |- _ => rewrite H
         end.
  cbn [andb].
  destruct (Z.leb_spec 0 (minute (shown upto dt))); [|lia].
  destruct (Z.leb_spec (minute (shown upto dt)) 59); [|lia].
  destruct (Z.leb_spec 0 (second (shown upto dt))); [|lia].
  destruct (Z.leb_spec (second (shown upto dt)) 59); [|lia].
  destruct (Z.leb_spec 0 (microsecond (shown upto dt))); [|lia].
  destruct (Z.leb_spec (microsecond (shown upto dt)) 999999); [|lia].
  reflexivity.
Qed.

(** The parser reads every layout: a calendar date, extended or basic,
    any one ASCII character, and a time, extended or basic, to the
    hour, the minute, the second or any fraction of a second. *)
Lemma fromisoformat_wire (basic_date : bool) (separator : ascii) (basic_time : bool)
    (upto : precision) (dt : datetime) :
  check_fields dt = Ok dt ->
  (nat_of_ascii separator < 128)%nat ->
  fraction_digits upto ->
  fromisoformat (wire basic_date separator basic_time upto dt) = Ok (shown upto dt).
Proof.
  intros Hok Hsep Hfrac. pose proof (check_fields_ranges _ _ Hok) as R.
  rewrite <- (check_fields_shown upto dt Hok Hfrac).
  destruct dt as [y mo d h mi s us tz];
    cbn [year month day hour minute second microsecond tzinfo] in *.
  unfold wire, wire_date, wire_time, four_digits, two_digits.
  cbn [year month day hour minute second microsecond].
  destruct basic_date; cbn [append].
  - rewrite fromisoformat_basic;
      [|cbn [forallb]; rewrite !is_digit_char by digit_range; reflexivity | exact Hsep].
    destruct upto as [| | |comma ds]; cbn [append shown fraction_digits] in *.
    + rewrite time_to_hours
        by (cbn [forallb]; rewrite !is_digit_char by digit_range; reflexivity).
      cbn [rbind year month day hour minute second microsecond].
      rewrite !digit_value_char by digit_range.
      unfold shown; cbn [year month day hour minute second microsecond].
      f_equal. f_equal; digit_range.
    + rewrite time_to_minutes
        by (cbn [forallb]; rewrite !is_digit_char by digit_range; reflexivity).
      cbn [rbind year month day hour minute second microsecond].
      rewrite !digit_value_char by digit_range.
      unfold shown; cbn [year month day hour minute second microsecond].
      f_equal. f_equal; digit_range.
    + rewrite time_to_seconds
        by (cbn [forallb]; rewrite !is_digit_char by digit_range; reflexivity).
      cbn [rbind year month day hour minute second microsecond].
      rewrite !digit_value_char by digit_range.
      unfold shown; cbn [year month day hour minute second microsecond].
      f_equal. f_equal; digit_range.
    + destruct Hfrac as [Hne Hds].
      rewrite time_to_fraction
        by (assumption
            || (cbn [forallb]; rewrite !is_digit_char by digit_range; reflexivity)).
      cbn [rbind year month day hour minute second microsecond].
      rewrite !digit_value_char by digit_range.
      unfold shown; cbn [year month day hour minute second microsecond].
      f_equal. f_equal; digit_range.
  - rewrite fromisoformat_extended;
      [|cbn [forallb]; rewrite !is_digit_char by digit_range; reflexivity | exact Hsep].
    destruct upto as [| | |comma ds]; cbn [append shown fraction_digits] in *.
    + rewrite time_to_hours
        by (cbn [forallb]; rewrite !is_digit_char by digit_range; reflexivity).
      cbn [rbind year month day hour minute second microsecond].
      rewrite !digit_value_char by digit_range.
      unfold shown; cbn [year month day hour minute second microsecond].
      f_equal. f_equal; digit_range.
    + rewrite time_to_minutes
        by (cbn [forallb]; rewrite !is_digit_char by digit_range; reflexivity).
      cbn [rbind year month day hour minute second microsecond].
      rewrite !digit_value_char by digit_range.
      unfold shown; cbn [year month day hour minute second microsecond].
      f_equal. f_equal; digit_range.
    + rewrite time_to_seconds
        by (cbn [forallb]; rewrite !is_digit_char by digit_range; reflexivity).
      cbn [rbind year month day hour minute second microsecond].
      rewrite !digit_value_char by digit_range.
      unfold shown; cbn [year month day hour minute second microsecond].
      f_equal. f_equal; digit_range.
    + destruct Hfrac as [Hne Hds].
      rewrite time_to_fraction
        by (assumption
            || (cbn [forallb]; rewrite !is_digit_char by digit_range; reflexivity)).
      cbn [rbind year month day hour minute second microsecond].
      rewrite !digit_value_char by digit_range.
      unfold shown; cbn [year month day hour minute second microsecond].
      f_equal. f_equal; digit_range.
Qed.

(** *** Where the time starts *)

Section TimePart.

Variables y1 y2 y3 y4 m1 m2 d1 d2 separator : ascii.
Variable t : string.

Hypothesis D : forallb is_digit [y1; y2; y3; y4; m1; m2; d1; d2] = true.
Hypothesis Hsep : (nat_of_ascii separator < 128)%nat.



End TimePart.


(** *** No [Z] in a layout *)

Lemma Z_not_digit (n : Z) : 0 <= n < 10 -> Ascii.eqb "Z" (digit_char n) = false.
Proof.
  intros H. rewrite Ascii.eqb_sym. apply digit_eqb; [now apply is_digit_char | reflexivity].
Qed.

Lemma char_in_app (c : ascii) (s t : string) :
  char_in c (s ++ t) = char_in c s || char_in c t.
Proof. unfold char_in. now rewrite list_ascii_app, existsb_app. Qed.







(** *** What [isoformat] writes *)

Lemma three_digits_string (n : Z) :
  three_digits n = digits_string [n / 100; n mod 100 / 10; (n mod 100) mod 10].
Proof. reflexivity. Qed.

(** [isoformat] writes the extended layout with a [T], to the second
    or with a point and three or six digits. *)
Lemma isoformat_wire (spec : timespec) (dt : datetime) :
  check_fields dt = Ok dt ->
  tzinfo dt = None ->
  representable spec (microsecond dt) = true ->
  exists upto,
    isoformat spec dt = wire false "T" false upto dt
    /\ fraction_digits upto
    /\ shown upto dt = dt.
Proof.
  intros Hok Htz Hex. pose proof (check_fields_ranges _ _ Hok) as R.
  destruct dt as [y mo d h mi s us tz];
    cbn [year month day hour minute second microsecond tzinfo] in *. subst tz.
  destruct spec; cbn [representable] in Hex.
  - exists To_seconds. split; [|split].
    + unfold isoformat, wire, wire_date, wire_time, fraction, four_digits, two_digits.
      cbn [year month day hour minute second microsecond append]. reflexivity.
    + exact I.
    + unfold shown; cbn [year month day hour minute second microsecond].
      f_equal. lia.
  - exists (To_fraction false
              [us / 1000 / 100; (us / 1000) mod 100 / 10; ((us / 1000) mod 100) mod 10]).
    split; [|split; [split|]].
    + unfold isoformat, wire, wire_date, wire_time, fraction, four_digits, two_digits.
      rewrite three_digits_string.
      cbn [year month day hour minute second microsecond append]. reflexivity.
    + discriminate.
    + repeat constructor; digit_range.
    + unfold shown, micros; cbn [year month day hour minute second microsecond
                                   List.app firstn fold_left].
      f_equal. digit_range.
  - exists (To_fraction false
              [us / 1000 / 100; (us / 1000) mod 100 / 10; ((us / 1000) mod 100) mod 10;
               us mod 1000 / 100; (us mod 1000) mod 100 / 10;
               ((us mod 1000) mod 100) mod 10]).
    split; [|split; [split|]].
    + unfold isoformat, wire, wire_date, wire_time, fraction, four_digits, two_digits.
      rewrite !three_digits_string.
      cbn [year month day hour minute second microsecond append digits_string].
      reflexivity.
    + discriminate.
    + repeat constructor; digit_range.
    + unfold shown, micros; cbn [year month day hour minute second microsecond
                                   List.app firstn fold_left].
      f_equal. digit_range.
Qed.

(** [fromisoformat] reads back what [isoformat] writes. *)
Lemma fromisoformat_isoformat (spec : timespec) (dt : datetime) :
  check_fields dt = Ok dt ->
  tzinfo dt = None ->
  representable spec (microsecond dt) = true ->
  fromisoformat (isoformat spec dt) = Ok dt.
Proof.
  intros Hok Htz Hex.
  destruct (isoformat_wire spec dt Hok Htz Hex) as (upto & -> & Hfrac & Hshown).
  rewrite fromisoformat_wire by (assumption || (cbn; lia)).
  now rewrite Hshown.
Qed.

Lemma isoformat_no_Z (spec : timespec) (dt : datetime) :
  check_fields dt = Ok dt -> char_in "Z" (isoformat spec dt) = false.
Proof.
  intros Hok. pose proof (check_fields_ranges _ _ Hok) as R.
  unfold isoformat, four_digits, fraction, three_digits, two_digits, char_in.
  destruct spec;
    cbn [append list_ascii_of_string existsb];
    rewrite !Z_not_digit by digit_range; reflexivity.
Qed.






(** ** The client's configuration and its requests *)

Lemma rstrip_slashes (s : string) :
  (exists n, s = rstrip "/" s ++ slashes n) /\ ends_with "/" (rstrip "/" s) = false.
Proof.
  induction s as [|c s [[n IHn] IHe]]; [split; [now exists O | reflexivity]|].
  cbn [rstrip]. destruct (rstrip "/" s) as [|a r] eqn:Hr.
  - cbn [append] in IHn. subst s.
    unfold char_in; cbn [list_ascii_of_string existsb].
    destruct (Ascii.eqb_spec c "/") as [->|Hc]; cbn [orb].
    + split; [now exists (S n) | reflexivity].
    + split; [now exists n|]. cbn [ends_with].
      destruct (Ascii.eqb_spec c "/"); [contradiction | reflexivity].
  - split.
    + exists n. rewrite IHn at 1. reflexivity.
    + exact IHe.
Qed.

Lemma rstrip_unchanged (s : string) : ends_with "/" s = false -> rstrip "/" s = s.
Proof.
  induction s as [|c s IH]; [reflexivity|]. intros H. cbn [rstrip].
  destruct s as [|a r].
  - cbn [rstrip]. cbn [ends_with] in H. unfold char_in; cbn [list_ascii_of_string existsb].
    rewrite H. reflexivity.
  - rewrite IH by exact H. reflexivity.
Qed.

(** X1. [VanishClient(base_url, ...)] keeps the base URL without its
    trailing slashes: what is stored never ends in a slash, it differs
    from what was given only by slashes at the end, and a base URL given
    without a trailing slash is stored as it is. *)
Theorem init_strips_trailing_slashes (url0 : string) (key : option string) (t : Z) :
  (exists n, url0 = base_url (init url0 key t) ++ slashes n)
  /\ ends_with "/" (base_url (init url0 key t)) = false
  /\ (ends_with "/" url0 = false -> base_url (init url0 key t) = url0)
  /\ api_key (init url0 key t) = key
  /\ timeout (init url0 key t) = t.
Proof.
  cbn [init base_url api_key timeout]. destruct (rstrip_slashes url0) as [Hn He].
  repeat split; try assumption. apply rstrip_unchanged.
Qed.

Section Configuration.

Variable env : Env.
Variable self : VanishClient.

Lemma request_headers_expected : request_headers self = expected_headers (api_key self).
Proof.
  unfold request_headers, expected_headers.
  destruct (api_key self) as [[|c k]|]; reflexivity.
Qed.

Lemma sent_one_after_request (req : Request) (w : World) :
  sent_one self w (after_request env req (timeout self) w) req.
Proof. reflexivity. Qed.

(** X2. The request each operation builds: the method of its endpoint
    ([GET], [POST] for [generate_email], [DELETE] for the two
    deletions), [Content-Type: application/json] always,
    [Authorization: Bearer <key>] exactly when the client has a
    non-empty API key, and no body except for [generate_email]; it is
    handed over with the client's timeout. *)
Theorem operation_requests (w : World) :
  builds self w (get_domains env self w) "GET" true
  /\ (forall domain prefix,
         builds self w (generate_email env self domain prefix w) "POST" false)
  /\ (forall address limit cursor,
         builds self w (list_emails env self address limit cursor w) "GET" true)
  /\ (forall email_id, builds self w (get_email env self email_id w) "GET" true)
  /\ (forall email_id attachment_id,
         builds self w (get_attachment env self email_id attachment_id w) "GET" true)
  /\ (forall email_id, builds self w (delete_email env self email_id w) "DELETE" true)
  /\ (forall address, builds self w (delete_mailbox env self address w) "DELETE" true)
  /\ expected_headers None = [("Content-Type", "application/json")]
  /\ expected_headers (Some "") = [("Content-Type", "application/json")]
  /\ (forall c k,
         expected_headers (Some (String c k))
         = [("Content-Type", "application/json");
            ("Authorization", "Bearer " ++ String c k)]).
Proof.
  unfold builds.
  repeat match goal with |- _ /\ _ => split end; intros; try reflexivity.
  - rewrite get_domains_run. eexists. split; [apply sent_one_after_request|].
    split; [reflexivity|]. split; [apply request_headers_expected | reflexivity].
  - unfold generate_email. rewrite request_then.
    eexists. split; [apply sent_one_after_request|].
    split; [reflexivity|]. split; [apply request_headers_expected | discriminate].
  - rewrite list_emails_run. eexists. split; [apply sent_one_after_request|].
    split; [reflexivity|]. split; [apply request_headers_expected | reflexivity].
  - rewrite get_email_run. eexists. split; [apply sent_one_after_request|].
    split; [reflexivity|]. split; [apply request_headers_expected | reflexivity].
  - rewrite get_attachment_run. eexists. split; [apply sent_one_after_request|].
    split; [reflexivity|]. split; [apply request_headers_expected | reflexivity].
  - rewrite delete_email_run. eexists. split; [apply sent_one_after_request|].
    split; [reflexivity|]. split; [apply request_headers_expected | reflexivity].
  - rewrite delete_mailbox_run. eexists. split; [apply sent_one_after_request|].
    split; [reflexivity|]. split; [apply request_headers_expected | reflexivity].
Qed.

(** X3. [generate_email] posts to [/mailbox] a body with the domain and
    the prefix that are given and not empty, in that order, and no body
    at all when there is neither; an empty string counts as absent. *)
Theorem generate_email_body (domain prefix : option string) (w : World) :
  (exists req,
      sent_one self w (snd (generate_email env self domain prefix w)) req
      /\ url req = base_url self ++ "/mailbox"
      /\ data req
         = match truthy domain, truthy prefix with
           | None, None => None
           | Some d, None => Some [("domain", d)]
           | None, Some p => Some [("prefix", p)]
           | Some d, Some p => Some [("domain", d); ("prefix", p)]
           end)
  /\ generate_email env self (truthy domain) (truthy prefix) w
     = generate_email env self domain prefix w
  /\ generate_email env self (Some "") prefix w = generate_email env self None prefix w
  /\ generate_email env self domain (Some "") w = generate_email env self domain None w.
Proof.
  split; [|split; [|split]].
  - unfold generate_email. rewrite request_then.
    eexists. split; [apply sent_one_after_request|].
    destruct (truthy domain), (truthy prefix); split; reflexivity.
  - destruct domain as [[|c d]|], prefix as [[|c' p]|]; reflexivity.
  - reflexivity.
  - destruct domain as [[|c d]|]; reflexivity.
Qed.

End Configuration.

(** X1, on an example. *)
Lemma init_strips_trailing_slashes_witness :
  base_url (init "https://api.vanish.host" None 30) = "https://api.vanish.host".
Proof.
  apply (proj1 (proj2 (proj2 (init_strips_trailing_slashes "https://api.vanish.host" None 30)))).
  reflexivity.
Defined.

(** ** Mapping the responses *)

Lemma comprehension_Forall2 {A} (f : pyval -> result A) (l : list pyval) (xs : list A) :
  comprehension f l = Ok xs <-> Forall2 (fun e x => f e = Ok x) l xs.
Proof.
  revert xs; induction l as [|e l IH]; intros xs; cbn [comprehension].
  - split; [intros [= <-]; constructor | intros H; inversion H; reflexivity].
  - split.
    + destruct (f e) as [x|] eqn:He; cbn [rbind]; [|intros E; inversion E].
      destruct (comprehension f l) as [ys|]; cbn [rbind]; [|intros E; inversion E].
      intros [= <-]. constructor; [exact He | now apply IH].
    + intros H. inversion H as [|? x ? ys He Hl]; subst.
      rewrite He; cbn [rbind]. apply IH in Hl. rewrite Hl. reflexivity.
Qed.

Lemma comprehension_first_failure {A} (f : pyval -> result A) (before after : list pyval)
    (bad : pyval) (e : exn) :
  Forall (fun x => exists y, f x = Ok y) before ->
  f bad = Raise e ->
  comprehension f (before ++ bad :: after)%list = Raise e.
Proof.
  intros Hb Hbad. induction Hb as [|x before [y Hy] _ IH]; cbn [List.app comprehension].
  - now rewrite Hbad.
  - rewrite Hy; cbn [rbind]. now rewrite IH.
Qed.

Lemma summary_of_first_missing (e : list (string * pyval)) (k : string) :
  first_missing ["id"; "from"; "subject"; "textPreview"; "receivedAt"] e = Some k ->
  summary_of (PDict e) = Raise (KeyError k).
Proof.
  unfold summary_of; cbn [first_missing getitem].
  repeat match goal with
         | |- context [lookup ?key e] =>
             destruct (lookup key e); cbn [rbind];
             [|intros [= <-]; reflexivity]
         end.
  intros E; inversion E.
Qed.

Section Mapping.

Variable env : Env.
Variable self : VanishClient.

(** X4. [get_domains] and [generate_email] hand back what the response
    holds under [domains] and under [email], whatever it is; when the
    response object lacks the key they raise [KeyError], and when the
    response is JSON but not an object they raise [TypeError]. *)
Theorem required_result_key (w : World) (content : string) (hdrs : headers) (v : pyval) :
  answers env w (Response content hdrs (Loaded v)) ->
  (forall d, v = PDict d ->
      fst (get_domains env self w)
      = match lookup "domains" d with
        | Some x => Ok x
        | None => Raise (KeyError "domains")
        end
      /\ forall domain prefix,
          fst (generate_email env self domain prefix w)
          = match lookup "email" d with
            | Some x => Ok x
            | None => Raise (KeyError "email")
            end)
  /\ ((forall d, v <> PDict d) ->
      fst (get_domains env self w) = Raise TypeError
      /\ forall domain prefix,
          fst (generate_email env self domain prefix w) = Raise TypeError).
Proof.
  intros Hans. split.
  - intros d ->. split; [|intros domain prefix].
    + rewrite get_domains_run; cbn [fst]. rewrite Hans. reflexivity.
    + unfold generate_email. rewrite request_then; cbn [fst]. rewrite Hans. reflexivity.
  - intros Hv. split; [|intros domain prefix].
    + rewrite get_domains_run; cbn [fst]. rewrite Hans.
      destruct v; try reflexivity. now destruct (Hv d).
    + unfold generate_email. rewrite request_then; cbn [fst]. rewrite Hans.
      destruct v; try reflexivity. now destruct (Hv d).
Qed.

(** X5. [list_emails] gives all the items or none: when the response
    lacks [data] it raises [KeyError('data')]; when an item fails to map,
    the listing raises what the first such item raises, and for an item
    that lacks one of [id], [from], [subject], [textPreview],
    [receivedAt] that is the [KeyError] of the first key it lacks; when
    all items map and [total] is missing it raises [KeyError('total')]. *)
Theorem list_emails_required_keys (address : string) (limit : Z) (cursor : option string)
    (w : World) (content : string) (hdrs : headers) (d : list (string * pyval)) :
  answers env w (Response content hdrs (Loaded (PDict d))) ->
  (lookup "data" d = None ->
   fst (list_emails env self address limit cursor w) = Raise (KeyError "data"))
  /\ (forall before bad after e,
         lookup "data" d = Some (PList (before ++ bad :: after)%list) ->
         Forall (fun x => exists s, summary_of x = Ok s) before ->
         summary_of bad = Raise e ->
         fst (list_emails env self address limit cursor w) = Raise e)
  /\ (forall item k,
         first_missing ["id"; "from"; "subject"; "textPreview"; "receivedAt"] item = Some k ->
         summary_of (PDict item) = Raise (KeyError k))
  /\ (forall items emails,
         lookup "data" d = Some (PList items) ->
         comprehension summary_of items = Ok emails ->
         lookup "total" d = None ->
         fst (list_emails env self address limit cursor w) = Raise (KeyError "total")).
Proof.
  intros Hans.
  assert (Hrun : fst (list_emails env self address limit cursor w)
                 = list_emails_result (PDict d)).
  { rewrite list_emails_run; cbn [fst]. now rewrite Hans. }
  rewrite Hrun. unfold list_emails_result. cbn [getitem get].
  repeat split.
  - intros ->. reflexivity.
  - intros before bad after e -> Hb Hbad. cbn [rbind iter].
    now rewrite (comprehension_first_failure _ _ _ _ _ Hb Hbad).
  - apply summary_of_first_missing.
  - intros items emails -> Hmap ->. cbn [rbind iter]. rewrite Hmap. cbn [rbind].
    destruct (lookup "nextCursor" d); reflexivity.
Qed.

(** X6. A page keeps the items of the response in their order, one
    summary per item; so does the attachment list of a mail. *)
Theorem listing_keeps_order (w : World) (content : string) (hdrs : headers)
    (d : list (string * pyval)) :
  answers env w (Response content hdrs (Loaded (PDict d))) ->
  (forall address limit cursor items page,
      lookup "data" d = Some (PList items) ->
      fst (list_emails env self address limit cursor w) = Ok page ->
      Forall2 (fun item s => summary_of item = Ok s) items (PaginatedEmailList.data page)
      /\ List.length (PaginatedEmailList.data page) = List.length items)
  /\ (forall email_id items mail,
         lookup "attachments" d = Some (PList items) ->
         fst (get_email env self email_id w) = Ok mail ->
         Forall2 (fun item a => attachment_of item = Ok a) items
                 (EmailDetail.attachments mail)
         /\ List.length (EmailDetail.attachments mail) = List.length items).
Proof.
  intros Hans. split.
  - intros address limit cursor items page Hdata.
    rewrite list_emails_run; cbn [fst]. rewrite Hans.
    cbn [handle rbind json_of]. unfold list_emails_result. cbn [getitem get].
    rewrite Hdata; cbn [rbind iter].
    destruct (comprehension summary_of items) as [emails|] eqn:Hmap; cbn [rbind];
      [|intros E; inversion E].
    destruct (lookup "nextCursor" d); cbn [rbind];
      (destruct (lookup "total" d); cbn [rbind]; [|intros E; inversion E]);
      intros [= <-]; cbn [PaginatedEmailList.data];
      apply comprehension_Forall2 in Hmap;
      (split; [exact Hmap | symmetry; eapply Forall2_length; exact Hmap]).
  - intros email_id items mail Hatt.
    rewrite get_email_run; cbn [fst]. rewrite Hans.
    cbn [handle rbind json_of]. unfold get_email_result. cbn [getitem get].
    rewrite Hatt; cbn [rbind iter].
    destruct (comprehension attachment_of items) as [atts|] eqn:Hmap; cbn [rbind];
      [|intros E; inversion E].
    repeat match goal with
           | |- context [rbind ?r _] =>
               destruct r; cbn [rbind]; [|intros E; inversion E]
           end.
    intros [= <-]; cbn [EmailDetail.attachments].
    apply comprehension_Forall2 in Hmap.
    split; [exact Hmap | symmetry; eapply Forall2_length; exact Hmap].
Qed.

(** X7. A mail whose [attachments] is present but null is a failure:
    [get_email] raises [TypeError] before it reads any other field.  So
    is any [attachments] that cannot be iterated. *)
Theorem get_email_null_attachments (email_id : string) (w : World) (content : string)
    (hdrs : headers) (d : list (string * pyval)) (v : pyval) :
  answers env w (Response content hdrs (Loaded (PDict d))) ->
  lookup "attachments" d = Some v ->
  iter v = Raise TypeError ->
  fst (get_email env self email_id w) = Raise TypeError.
Proof.
  intros Hans Hatt Hiter.
  rewrite get_email_run; cbn [fst]. rewrite Hans.
  cbn [handle rbind json_of]. unfold get_email_result. cbn [get].
  rewrite Hatt; cbn [rbind]. now rewrite Hiter.
Qed.

End Mapping.

(** X4, on an example. *)
Lemma required_result_key_witness :
  fst (get_domains domains_server example_client fresh)
  = Ok (PList [PStr "vanish.host"; PStr "example.com"]).
Proof.
  refine (proj1 (proj1 (required_result_key domains_server example_client fresh "" []
                          (PDict [("domains", PList [PStr "vanish.host"; PStr "example.com"])])
                          _)
                   [("domains", PList [PStr "vanish.host"; PStr "example.com"])] eq_refl)).
  intro req. reflexivity.
Defined.

(** X5, on an example: a response without [data]. *)
Lemma list_emails_required_keys_witness :
  fst (list_emails domains_server example_client "a@b.c" 20 None fresh)
  = Raise (KeyError "data").
Proof.
  refine (proj1 (list_emails_required_keys domains_server example_client "a@b.c" 20 None
                   fresh "" []
                   [("domains", PList [PStr "vanish.host"; PStr "example.com"])] _) _).
  - intro req. reflexivity.
  - reflexivity.
Defined.

(** X6, on examples: a page of two mails, newest first, and a mail
    with two attachments. *)
Lemma listing_keeps_order_witness :
  (Forall2 (fun item s => summary_of item = Ok s) [second_mail; example_mail]
           [second_summary; example_summary]
   /\ List.length [second_summary; example_summary]
      = List.length [second_mail; example_mail])
  /\ (Forall2 (fun item a => attachment_of item = Ok a)
              [first_attachment; second_attachment]
              [AttachmentMeta.mk (PStr "a1") (PStr "report.pdf") (PStr "application/pdf")
                 (PInt 1024);
               AttachmentMeta.mk (PStr "a2") (PStr "photo.png") (PStr "image/png")
                 (PInt 2048)]
      /\ List.length
           [AttachmentMeta.mk (PStr "a1") (PStr "report.pdf") (PStr "application/pdf")
              (PInt 1024);
            AttachmentMeta.mk (PStr "a2") (PStr "photo.png") (PStr "image/png")
              (PInt 2048)]
         = List.length [first_attachment; second_attachment]).
Proof.
  split.
  - refine (proj1 (listing_keeps_order two_mail_server example_client fresh "" []
                     two_mails _)
              "a@b.c" 20 None [second_mail; example_mail]
              (PaginatedEmailList.mk [second_summary; example_summary] PNone (PInt 2)) _ _).
    + intro req. reflexivity.
    + reflexivity.
    + reflexivity.
  - refine (proj2 (listing_keeps_order two_attachment_server example_client fresh "" []
                     two_attachments _)
              "m1" [first_attachment; second_attachment]
              (EmailDetail.mk (PStr "m1") (PStr "alice@example.com")
                 (PList [PStr "a+b@example.com"]) (PStr "Hi") (PStr "<p>Hello</p>")
                 (PStr "Hello") (mk_datetime 2024 1 15 10 30 0 0 utc) (PBool false)
                 [AttachmentMeta.mk (PStr "a1") (PStr "report.pdf")
                    (PStr "application/pdf") (PInt 1024);
                  AttachmentMeta.mk (PStr "a2") (PStr "photo.png") (PStr "image/png")
                    (PInt 2048)]) _ _).
    + intro req. reflexivity.
    + reflexivity.
    + reflexivity.
Defined.

(** X7, on an example. *)
Lemma get_email_null_attachments_witness :
  fst (get_email null_attachments_server example_client "m1" fresh) = Raise TypeError.
Proof.
  refine (get_email_null_attachments null_attachments_server example_client "m1" fresh
            "" [] (("attachments", PNone) :: example_detail) PNone _ _ _).
  - intro req. reflexivity.
  - reflexivity.
  - reflexivity.
Defined.

(** ** Encoding *)

Lemma length_quote (s : string) : (String.length s <= String.length (quote s))%nat.
Proof.
  induction s as [|c s IH]; [reflexivity|]. cbn [quote].
  rewrite length_app_str. destruct (always_safe c); cbn; lia.
Qed.

Lemma quote_unchanged (s : string) : quote s = s <-> all_safe s = true.
Proof.
  unfold all_safe. induction s as [|c s IH]; [now split|].
  cbn [quote list_ascii_of_string forallb]. destruct (always_safe c) eqn:Hc.
  - cbn [append andb]. rewrite <- IH. split; [now intros [= ->] | now intros ->].
  - cbn [andb]. split; [|discriminate]. unfold percent_byte. cbn [append].
    intros [= _ H]. pose proof (length_quote s) as Hl.
    apply (f_equal String.length) in H. cbn [String.length] in H. lia.
Qed.

Lemma append_cancel_l (s a b : string) : s ++ a = s ++ b -> a = b.
Proof. induction s as [|c s IH]; cbn; [trivial | intros [= H]; auto]. Qed.

Lemma append_cancel_r (s t q : string) : s ++ q = t ++ q -> s = t.
Proof.
  revert t; induction s as [|c s IH]; intros [|d t] H; cbn [append] in H.
  - reflexivity.
  - apply (f_equal String.length) in H. cbn [String.length] in H.
    rewrite length_app_str in H. lia.
  - apply (f_equal String.length) in H. cbn [String.length] in H.
    rewrite length_app_str in H. lia.
  - injection H as -> H. now rewrite (IH t H).
Qed.

Lemma quote_injective (a b : string) : quote a = quote b -> a = b.
Proof. intros H. rewrite <- (unquote_quote a), <- (unquote_quote b). now rewrite H. Qed.

Lemma replace_app (old : ascii) (new s t : string) :
  replace old new (s ++ t) = replace old new s ++ replace old new t.
Proof.
  induction s as [|c s IH]; [reflexivity|]. cbn [append replace].
  destruct (Ascii.eqb c old); rewrite IH; [now rewrite str_assoc | reflexivity].
Qed.

Lemma unquote_plus_byte (c : ascii) (t : string) :
  unquote (replace "+" " " (if Ascii.eqb c " " then "+"
                            else if always_safe c then String c EmptyString
                            else percent_byte c) ++ t)
  = String c (unquote t).
Proof. destruct c as [[] [] [] [] [] [] [] []]; reflexivity. Qed.

Lemma unquote_plus_quote_plus (s : string) : unquote_plus (quote_plus s) = s.
Proof.
  unfold unquote_plus. induction s as [|c s IH]; [reflexivity|].
  cbn [quote_plus]. rewrite replace_app, unquote_plus_byte. now rewrite IH.
Qed.

Lemma no_query_delimiter_app (s t : string) :
  no_query_delimiter (s ++ t) = no_query_delimiter s && no_query_delimiter t.
Proof. unfold no_query_delimiter. now rewrite list_ascii_app, forallb_app. Qed.

Lemma no_query_delimiter_byte (c : ascii) :
  no_query_delimiter (if Ascii.eqb c " " then "+"
                      else if always_safe c then String c EmptyString
                      else percent_byte c) = true.
Proof. destruct c as [[] [] [] [] [] [] [] []]; reflexivity. Qed.

Lemma no_query_delimiter_quote_plus (s : string) : no_query_delimiter (quote_plus s) = true.
Proof.
  induction s as [|c s IH]; [reflexivity|]. cbn [quote_plus].
  now rewrite no_query_delimiter_app, no_query_delimiter_byte, IH.
Qed.

Section Encoding.

Variable env : Env.
Variable self : VanishClient.

(** X8. [quote] leaves a string as it is exactly when the string is made
    of letters, digits and [_.-~] only.  So for an identifier of that
    kind, such as a UUID, the path [get_email], [get_attachment] and
    [delete_email] build is the one with the identifier percent-encoded,
    and the identifier is one path segment. *)
Theorem safe_identifiers_need_no_encoding (w : World) :
  (forall s, quote s = s <-> all_safe s = true)
  /\ (forall email_id,
         all_safe email_id = true ->
         urls (snd (get_email env self email_id w))
         = List.app (urls w) [base_url self ++ "/email/" ++ quote email_id]
         /\ urls (snd (delete_email env self email_id w))
            = List.app (urls w) [base_url self ++ "/email/" ++ quote email_id]
         /\ no_reserved email_id = true)
  /\ (forall email_id attachment_id,
         all_safe email_id = true ->
         all_safe attachment_id = true ->
         urls (snd (get_attachment env self email_id attachment_id w))
         = List.app (urls w) [base_url self ++ "/email/" ++ quote email_id
                              ++ "/attachments/" ++ quote attachment_id]).
Proof.
  split; [exact quote_unchanged|]. split.
  - intros email_id Hs. pose proof (proj2 (quote_unchanged email_id) Hs) as Hq.
    rewrite get_email_run, delete_email_run; cbn [snd].
    rewrite !urls_after_request. rewrite Hq. repeat split.
    rewrite <- Hq. apply no_reserved_quote.
  - intros email_id attachment_id Hs Ha.
    rewrite (proj2 (quote_unchanged email_id) Hs), (proj2 (quote_unchanged attachment_id) Ha).
    rewrite get_attachment_run; cbn [snd]. now rewrite urls_after_request.
Qed.

(** X9. Different addresses never share a mailbox URL: when
    [delete_mailbox] sends the same URL for two addresses, or
    [list_emails] does for the same limit and cursor, the addresses are
    the same. *)
Theorem mailbox_url_determines_address (a b : string) (w : World) :
  (urls (snd (delete_mailbox env self a w)) = urls (snd (delete_mailbox env self b w)) ->
   a = b)
  /\ (forall limit cursor,
         urls (snd (list_emails env self a limit cursor w))
         = urls (snd (list_emails env self b limit cursor w)) ->
         a = b).
Proof.
  split.
  - rewrite !delete_mailbox_run; cbn [snd]. rewrite !urls_after_request.
    intros H. apply app_inv_head in H. injection H as H.
    cbn [build_request url request_url] in H.
    apply append_cancel_l, (append_cancel_l "/mailbox/"), quote_injective in H. exact H.
  - intros limit cursor. rewrite !address_round_trip_urls.
    intros H. apply app_inv_head in H. injection H as H.
    apply append_cancel_l, (append_cancel_l "/mailbox/") in H.
    apply append_cancel_r, quote_injective in H. exact H.
Qed.

(** X10. Pagination hands the cursor through: a page carries, as
    [next_cursor], what the response holds under [nextCursor]; a cursor
    given to [list_emails] is sent as [cursor=] followed by its
    [quote_plus] form, which holds no [&], [=], [#], [?], [/] or space
    and decodes back to the cursor. *)
Theorem cursor_passed_through (address : string) (limit : Z) (w : World) :
  (forall c,
      urls (snd (list_emails env self address limit (Some c) w))
      = List.app (urls w) [base_url self ++ "/mailbox/" ++ quote address ++ "?limit="
                           ++ str_of_int limit ++ "&cursor=" ++ quote_plus c]
      /\ unquote_plus (quote_plus c) = c
      /\ no_query_delimiter (quote_plus c) = true)
  /\ (forall cursor content hdrs d data items emails total v,
         answers env w (Response content hdrs (Loaded (PDict d))) ->
         lookup "nextCursor" d = Some v ->
         lookup "data" d = Some data ->
         iter data = Ok items ->
         comprehension summary_of items = Ok emails ->
         lookup "total" d = Some total ->
         fst (list_emails env self address limit cursor w)
         = Ok (PaginatedEmailList.mk emails v total)).
Proof.
  split.
  - intros c. split; [apply address_round_trip_urls|].
    split; [apply unquote_plus_quote_plus | apply no_query_delimiter_quote_plus].
  - intros cursor content hdrs d data items emails total v Hans Hcur Hdata Hiter Hmap Htot.
    rewrite list_emails_run; cbn [fst]. rewrite Hans.
    cbn [handle rbind json_of]. unfold list_emails_result.
    cbn [getitem get]. rewrite Hdata, Hcur, Htot. cbn [rbind].
    rewrite Hiter. cbn [rbind]. rewrite Hmap. reflexivity.
Qed.

End Encoding.

(** X8, on an example: a UUID. *)
Lemma safe_identifiers_need_no_encoding_witness :
  urls (snd (get_email refusing example_client "123e4567-e89b-12d3-a456-426614174000" fresh))
  = ["https://api.vanish.host/email/123e4567-e89b-12d3-a456-426614174000"].
Proof.
  refine (proj1 (proj1 (proj2 (safe_identifiers_need_no_encoding refusing example_client
                                 fresh))
                   "123e4567-e89b-12d3-a456-426614174000" _)).
  reflexivity.
Defined.

(** X9, on an example. *)
Lemma mailbox_url_determines_address_witness : "a+b@example.com" = "a+b@example.com".
Proof.
  refine (proj1 (mailbox_url_determines_address refusing example_client
                   "a+b@example.com" "a+b@example.com" fresh) _).
  reflexivity.
Defined.

(** X10, on an example: a page with a cursor. *)
Lemma cursor_passed_through_witness :
  fst (list_emails paged_server example_client "a@b.c" 20 None fresh)
  = Ok (PaginatedEmailList.mk [] (PStr "page 2&x=1") (PInt 3)).
Proof.
  refine (proj2 (cursor_passed_through paged_server example_client "a@b.c" 20 fresh)
            None "" [] [("data", PList []); ("nextCursor", PStr "page 2&x=1");
                        ("total", PInt 3)]
            (PList []) [] [] (PInt 3) (PStr "page 2&x=1") _ _ _ _ _ _).
  - intro req. reflexivity.
  - reflexivity.
  - reflexivity.
  - reflexivity.
  - reflexivity.
  - reflexivity.
Defined.

(** ** Errors of the server and of the body *)

(** *** [dict(headers)] *)

Lemma dict_set_In (d : list (string * string)) (k v k' v' : string) :
  In (k, v) (dict_set d k' v') -> (k = k' /\ v = v') \/ In (k, v) d.
Proof.
  induction d as [|[k0 v0] d IH]; cbn [dict_set].
  - intros [[= <- <-]|[]]. now left.
  - destruct (String.eqb_spec k0 k') as [->|Hne].
    + intros [[= <- <-]|Hin]; [now left | right; now right].
    + intros [Heq|Hin]; [right; now left|].
      destruct (IH Hin) as [Hnew|Hold]; [now left | right; now right].
Qed.

Lemma dict_set_keys (d : list (string * string)) (k v x : string) :
  In x (map fst (dict_set d k v)) <-> x = k \/ In x (map fst d).
Proof.
  induction d as [|[k0 v0] d IH]; cbn [dict_set map fst In].
  - intuition.
  - destruct (String.eqb_spec k0 k) as [->|Hne]; cbn [map fst In]; intuition.
Qed.

Lemma dict_set_NoDup (d : list (string * string)) (k v : string) :
  NoDup (map fst d) -> NoDup (map fst (dict_set d k v)).
Proof.
  induction d as [|[k0 v0] d IH]; cbn [dict_set map fst]; intros Hd.
  - repeat constructor. intros [].
  - inversion Hd as [|? ? Hnot Hrest]; subst.
    destruct (String.eqb_spec k0 k) as [->|Hne]; cbn [map fst].
    + now constructor.
    + constructor; [|now apply IH].
      rewrite dict_set_keys. intros [->|Hin]; [now apply Hne | now apply Hnot].
Qed.

Lemma dict_set_fresh (d : list (string * string)) (k v : string) :
  ~ In k (map fst d) -> dict_set d k v = (d ++ [(k, v)])%list.
Proof.
  induction d as [|[k0 v0] d IH]; cbn [dict_set map fst In]; intros Hk; [reflexivity|].
  destruct (String.eqb_spec k0 k) as [->|Hne]; [now destruct Hk; left|].
  cbn [List.app]. rewrite IH; [reflexivity|]. intros Hin. apply Hk. now right.
Qed.

Lemma header_get_own (hdrs : headers) (k : string) :
  In k (map fst hdrs) -> exists v, header_get hdrs k = Some v.
Proof.
  unfold header_get. induction hdrs as [|[k0 v0] hdrs IH]; cbn [map fst In List.find].
  - intros [].
  - intros [->|Hin].
    + rewrite String.eqb_refl. now eexists.
    + destruct (String.eqb (lower k0) (lower k)); [now eexists | now apply IH].
Qed.

Section HeaderDict.

Variable hdrs : headers.

(** One pass of the loop that fills the dict. *)
Abbreviation fill := (fun (d : list (string * string)) (kv : string * string) =>
                        match header_get hdrs (fst kv) with
                        | Some v => dict_set d (fst kv) v
                        | None => d
                        end).

Lemma fill_NoDup (l : headers) (d : list (string * string)) :
  NoDup (map fst d) -> NoDup (map fst (fold_left fill l d)).
Proof.
  revert d; induction l as [|kv l IH]; intros d Hd; [exact Hd|].
  cbn [fold_left]. apply IH.
  destruct (header_get hdrs (fst kv)); [now apply dict_set_NoDup | exact Hd].
Qed.

Lemma fill_keys (l : headers) (d : list (string * string)) (k : string) :
  (forall x, In x (map fst l) -> In x (map fst hdrs)) ->
  In k (map fst (fold_left fill l d)) <-> In k (map fst d) \/ In k (map fst l).
Proof.
  revert d; induction l as [|kv l IH]; intros d Hl; cbn [fold_left map In].
  - intuition.
  - rewrite IH by (intros x Hx; apply Hl; now right).
    destruct (header_get_own hdrs (fst kv)) as [v ->]; [apply Hl; now left|].
    rewrite dict_set_keys. intuition.
Qed.

Lemma fill_values (l : headers) (d : list (string * string)) :
  (forall k v, In (k, v) d -> header_get hdrs k = Some v) ->
  forall k v, In (k, v) (fold_left fill l d) -> header_get hdrs k = Some v.
Proof.
  revert d; induction l as [|kv l IH]; intros d Hd; [exact Hd|].
  cbn [fold_left]. apply IH.
  destruct (header_get hdrs (fst kv)) as [v0|] eqn:Hget; [|exact Hd].
  intros k v Hin. destruct (dict_set_In _ _ _ _ _ Hin) as [[-> ->]|Hold];
    [exact Hget | now apply Hd].
Qed.

Lemma dict_of_headers_NoDup : NoDup (map fst (dict_of_headers hdrs)).
Proof. apply fill_NoDup. constructor. Qed.

Lemma dict_of_headers_keys (k : string) :
  In k (map fst (dict_of_headers hdrs)) <-> In k (map fst hdrs).
Proof.
  unfold dict_of_headers. rewrite fill_keys by trivial. cbn [map In]. intuition.
Qed.

Lemma dict_of_headers_values (k v : string) :
  In (k, v) (dict_of_headers hdrs) -> header_get hdrs k = Some v.
Proof. apply fill_values. intros ? ? []. Qed.

End HeaderDict.

Lemma header_get_first (before after : headers) (k v : string) :
  ~ In (lower k) (map (fun kv => lower (fst kv)) before) ->
  header_get (before ++ (k, v) :: after)%list k = Some v.
Proof.
  unfold header_get. induction before as [|[k0 v0] before IH]; cbn [map In List.app List.find fst].
  - intros _. now rewrite String.eqb_refl.
  - intros Hnot. destruct (String.eqb_spec (lower k0) (lower k)) as [Heq|Hne].
    + destruct Hnot. now left.
    + apply IH. intros Hin. apply Hnot. now right.
Qed.

Lemma fill_distinct (hdrs before after : headers) :
  hdrs = (before ++ after)%list ->
  NoDup (map (fun kv => lower (fst kv)) hdrs) ->
  fold_left (fun d kv =>
               match header_get hdrs (fst kv) with
               | Some v => dict_set d (fst kv) v
               | None => d
               end) after before
  = hdrs.
Proof.
  revert before; induction after as [|[k v] after IH]; intros before Hh Hd.
  - cbn [fold_left]. now rewrite Hh, app_nil_r.
  - cbn [fold_left fst].
    assert (Hnot : ~ In (lower k) (map (fun kv => lower (fst kv)) before)).
    { rewrite Hh, map_app in Hd. cbn [map fst] in Hd.
      apply NoDup_remove_2 in Hd. intros Hin. apply Hd. apply in_or_app. now left. }
    rewrite Hh at 1. rewrite header_get_first by exact Hnot.
    rewrite dict_set_fresh.
    + apply IH; [|exact Hd]. now rewrite <- app_assoc.
    + intros Hin. apply Hnot. rewrite in_map_iff in Hin. destruct Hin as [[k0 v0] [Hk Hin]].
      cbn [fst] in Hk. subst k0. rewrite in_map_iff. now exists (k, v0).
Qed.

Lemma dict_of_headers_distinct (hdrs : headers) :
  NoDup (map (fun kv => lower (fst kv)) hdrs) -> dict_of_headers hdrs = hdrs.
Proof. intros Hd. now apply (fill_distinct hdrs [] hdrs). Qed.

Section Errors.

Variable env : Env.
Variable self : VanishClient.

Lemma json_operations_raise_handle (w : World) (r : urlopen_result) (e : exn) :
  answers env w r ->
  handle false r = Raise e ->
  json_operations_raise env self w e.
Proof.
  intros Hans He. unfold json_operations_raise. repeat split; intros.
  - rewrite get_domains_run; cbn [fst]. now rewrite Hans, He.
  - unfold generate_email. rewrite request_then; cbn [fst]. now rewrite Hans, He.
  - rewrite list_emails_run; cbn [fst]. now rewrite Hans, He.
  - rewrite get_email_run; cbn [fst]. now rewrite Hans, He.
  - rewrite delete_email_run; cbn [fst]. now rewrite Hans, He.
  - rewrite delete_mailbox_run; cbn [fst]. now rewrite Hans, He.
  - unfold poll_for_emails; cbn [while].
    rewrite pass_checks by lia. unfold listing. now rewrite Hans, He.
Qed.

(** X11. An HTTP error whose body is a JSON object, or does not decode,
    makes every operation raise a [VanishError] with the HTTP status as
    its status code; the message is the value under [error] when the
    object has one, whatever its type, and [HTTP Error <code>: <reason>]
    otherwise. *)
Theorem http_errors_carry_status (w : World) (code : Z) (msg : string) (body : decoded) :
  answers env w (HTTPError code msg body) ->
  (forall v, body = Loaded v -> exists d, v = PDict d) ->
  let e := VanishError (http_error_message code msg body) (Some code) in
  json_operations_raise env self w e
  /\ (forall email_id attachment_id,
         fst (get_attachment env self email_id attachment_id w) = Raise e)
  /\ str_HTTPError code msg = "HTTP Error " ++ str_of_int code ++ ": " ++ msg.
Proof.
  intros Hans Hbody e.
  assert (He : forall raw, handle raw (HTTPError code msg body) = Raise e).
  { intros raw. subst e. destruct body as [v| |]; try reflexivity.
    destruct (Hbody v eq_refl) as [d ->]. apply handle_http_error_object. }
  split; [|split].
  - apply (json_operations_raise_handle w _ e Hans (He false)).
  - intros. rewrite get_attachment_run; cbn [fst]. now rewrite Hans, He.
  - reflexivity.
Qed.

(** X12. [get_attachment] never decodes the body: for every 2xx answer
    it gives back the bytes as they came, and the headers as
    [dict(headers)] makes them: one entry for every name that occurs,
    spelt as it first occurred, holding the value of the first header
    with that name in any case of letters; when no name occurs twice,
    in any case, that is the headers as they came.  The other
    operations decode the body, and a 2xx body that is not JSON, or not
    UTF-8, comes out of them as [JSONDecodeError] or
    [UnicodeDecodeError], not as a [VanishError]. *)
Theorem success_body_decoding (w : World) (content : string) (hdrs : headers)
    (body : decoded) :
  answers env w (Response content hdrs body) ->
  (forall email_id attachment_id,
      fst (get_attachment env self email_id attachment_id w)
      = Ok (content, dict_of_headers hdrs))
  /\ NoDup (map fst (dict_of_headers hdrs))
  /\ (forall k, In k (map fst (dict_of_headers hdrs)) <-> In k (map fst hdrs))
  /\ (forall k v, In (k, v) (dict_of_headers hdrs) -> header_get hdrs k = Some v)
  /\ (NoDup (map (fun kv => lower (fst kv)) hdrs) -> dict_of_headers hdrs = hdrs)
  /\ (body = NotJSON -> json_operations_raise env self w JSONDecodeError)
  /\ (body = NotUTF8 -> json_operations_raise env self w UnicodeDecodeError).
Proof.
  intros Hans. repeat match goal with |- _ /\ _ => split end.
  - intros. rewrite get_attachment_run; cbn [fst]. now rewrite Hans.
  - apply dict_of_headers_NoDup.
  - apply dict_of_headers_keys.
  - apply dict_of_headers_values.
  - apply dict_of_headers_distinct.
  - intros ->. now apply (json_operations_raise_handle w _ _ Hans).
  - intros ->. now apply (json_operations_raise_handle w _ _ Hans).
Qed.

End Errors.

(** X11, on an example: a 404 with a JSON error. *)
Lemma http_errors_carry_status_witness :
  fst (delete_mailbox not_found_server example_client "a@b.c" fresh)
  = Raise (VanishError (PStr "mailbox not found") (Some 404)).
Proof.
  refine (proj1 (proj2 (proj2 (proj2 (proj2 (proj2 (proj1
            (http_errors_carry_status not_found_server example_client fresh 404 "Not Found"
               (Loaded (PDict [("error", PStr "mailbox not found")])) _ _))))))) "a@b.c").
  - intro req. reflexivity.
  - intros v [= <-]. eexists. reflexivity.
Defined.

(** X12, on an example: a PDF that comes with three cookies. *)
Lemma success_body_decoding_witness :
  fst (get_attachment cookie_server example_client "m1" "a1" fresh)
  = Ok ("%PDF-1.7", [("Content-Type", "application/pdf"); ("Set-Cookie", "a=1");
                     ("set-cookie", "a=1")])
  /\ fst (get_attachment attachment_server example_client "m1" "a1" fresh)
     = Ok ("%PDF-1.7", [("Content-Type", "application/pdf")])
  /\ fst (get_email attachment_server example_client "m1" fresh) = Raise JSONDecodeError.
Proof.
  pose proof (success_body_decoding cookie_server example_client fresh "%PDF-1.7"
                cookie_headers NotJSON (fun req => eq_refl)) as [Hcookies _].
  pose proof (success_body_decoding attachment_server example_client fresh "%PDF-1.7"
                [("Content-Type", "application/pdf")] NotJSON
                (fun req => eq_refl)) as (Hraw & _ & _ & _ & _ & Hjson & _).
  split; [exact (Hcookies "m1" "a1")|].
  split; [exact (Hraw "m1" "a1") | apply (Hjson eq_refl)].
Defined.

(** ** Every run of a poll *)

Section PollingShape.

Variable env : Env.
Variable self : VanishClient.
Variable address : string.

Abbreviation last_request w :=
  (after_request env (poll_request self address) (timeout self) w).

Variables timeout interval initial_count : Z.
Variable start : Z.

Abbreviation loop_pass :=
  (poll_pass env self address timeout interval initial_count start).
Abbreviation passes k w := (after_rounds env self address interval k w).
Abbreviation spent k n := (elapsed env interval k n).

(** A finished loop is some passes without new mail, each begun before
    the deadline, and then either the test of the clock or one more
    check. *)
Lemma while_shape (fuel : nat) (w : World) r w' :
  while fuel loop_pass w = Some (r, w') ->
  exists k,
    (forall j, (j < k)%nat -> clock w - start + spent j (requests_made w) < timeout)
    /\ ((r = Ok None /\ w' = passes k w
         /\ timeout <= clock w - start + spent k (requests_made w))
        \/ (r <> Ok None /\ w' = last_request (passes k w)
            /\ clock w - start + spent k (requests_made w) < timeout)).
Proof.
  revert w; induction fuel as [|fuel IH]; intros w Hrun; [discriminate|].
  cbn [while] in Hrun.
  destruct (Z.lt_ge_cases (clock w - start) timeout) as [Hlt|Hge].
  - assert (Hend : forall r0, r0 <> Ok None -> Some (r0, last_request w) = Some (r, w') ->
              exists k,
                (forall j, (j < k)%nat ->
                           clock w - start + spent j (requests_made w) < timeout)
                /\ ((r = Ok None /\ w' = passes k w
                     /\ timeout <= clock w - start + spent k (requests_made w))
                    \/ (r <> Ok None /\ w' = last_request (passes k w)
                        /\ clock w - start + spent k (requests_made w) < timeout))).
    { intros r0 Hr0 [= <- <-]. exists O. split; [lia|]. right.
      cbn [after_rounds elapsed]. repeat split; [exact Hr0 | lia]. }
    rewrite pass_checks in Hrun by assumption.
    destruct (listing env self address (requests_made w)) as [page|e];
      [|apply (Hend (Raise e)); [discriminate | exact Hrun]].
    destruct (new_mail page initial_count) as [found|e];
      [|apply (Hend (Raise e)); [discriminate | exact Hrun]].
    assert (Hsleep : match (if interval <? 0 then (Raise ValueError, last_request w)
                            else (Ok Continue,
                                  after_round env self address interval w))
                     with
                     | (Ok (Return a), w1) => Some (Ok a, w1)
                     | (Ok Continue, w1) => while fuel loop_pass w1
                     | (Raise e, w1) => Some (Raise e, w1)
                     end = Some (r, w') ->
              exists k,
                (forall j, (j < k)%nat ->
                           clock w - start + spent j (requests_made w) < timeout)
                /\ ((r = Ok None /\ w' = passes k w
                     /\ timeout <= clock w - start + spent k (requests_made w))
                    \/ (r <> Ok None /\ w' = last_request (passes k w)
                        /\ clock w - start + spent k (requests_made w) < timeout))).
    { destruct (interval <? 0);
        [apply (Hend (Raise ValueError)); discriminate|].
      intros Hrest. destruct (IH _ Hrest) as (k & Hbefore & Hlast).
      rewrite requests_made_round, clock_round in Hbefore, Hlast.
      exists (S k). cbn [after_rounds elapsed]. split.
      - intros [|j] Hj; [cbn [elapsed]; lia|].
        specialize (Hbefore j ltac:(lia)). cbn [elapsed]. lia.
      - destruct Hlast as [(-> & -> & Ht) | (Hr & -> & Ht)];
          [left | right]; repeat split; try assumption; lia. }
    destruct found; [|exact (Hsleep Hrun)].
    destruct (PaginatedEmailList.data page) as [|first rest]; [exact (Hsleep Hrun)|].
    apply (Hend (Ok (Some first))); [discriminate | exact Hrun].
  - rewrite pass_expired in Hrun by lia. injection Hrun as <- <-.
    exists O. split; [lia|]. left. cbn [after_rounds elapsed]. repeat split. lia.
Qed.

Lemma elapsed_at_least (k n : nat) :
  (forall m, 0 <= latency env m) -> Z.of_nat k * interval <= spent k n.
Proof.
  intros Hl. revert n; induction k as [|k IH]; intros n; [cbn; lia|].
  cbn [elapsed]. specialize (IH (S n)). specialize (Hl n).
  rewrite Nat2Z.inj_succ. lia.
Qed.

End PollingShape.

Section PollingRuns.

Variable env : Env.
Variable self : VanishClient.
Variable address : string.

Abbreviation ended_by_request w :=
  (after_request env (poll_request self address) (timeout self) w).

Variables timeout interval initial_count : Z.

Abbreviation run_poll fuel w :=
  (poll_for_emails env fuel self address timeout interval initial_count w).

(** X13. With a timeout of zero or less the poll returns [None] at once:
    it sends no request and does not sleep, whatever the interval. *)
Theorem poll_without_time (fuel : nat) (w : World) :
  timeout <= 0 -> run_poll (S fuel) w = Some (Ok None, w).
Proof.
  intros H. unfold poll_for_emails; cbn [while].
  rewrite pass_expired by lia. reflexivity.
Qed.

(** X14. Every poll that ends has the same shape: [k] passes, each one
    listing request (address, limit 1, no cursor) begun before the
    deadline and one sleep of [interval]; then either the clock test at
    or past the deadline, with [None] and nothing more sent, or one more
    listing request begun before the deadline, which ends the poll with
    a mail or an exception and no sleep after it. *)
Theorem poll_run_shape (fuel : nat) (w : World) r w' :
  run_poll fuel w = Some (r, w') ->
  exists k,
    (forall j, (j < k)%nat -> elapsed env interval j (requests_made w) < timeout)
    /\ ((r = Ok None
         /\ w' = after_rounds env self address interval k w
         /\ timeout <= elapsed env interval k (requests_made w)
         /\ requests_made w' = (requests_made w + k)%nat)
        \/ (r <> Ok None
            /\ w' = ended_by_request (after_rounds env self address interval k w)
            /\ elapsed env interval k (requests_made w) < timeout
            /\ requests_made w' = (requests_made w + k + 1)%nat)).
Proof.
  intros Hrun. unfold poll_for_emails in Hrun.
  destruct (while_shape _ _ _ _ _ _ _ _ _ _ _ Hrun) as (k & Hbefore & Hlast).
  exists k. split.
  - intros j Hj. specialize (Hbefore j Hj). lia.
  - destruct Hlast as [(-> & -> & Ht) | (Hr & -> & Ht)]; [left | right].
    + repeat split; [lia | apply requests_made_rounds].
    + repeat split; [exact Hr | lia |].
      rewrite requests_made_after_request, requests_made_rounds. lia.
Qed.

(** X15. A poll makes few requests: when requests take no negative time,
    a poll that sent [n] requests has [n = 0] or
    [(n - 1) * interval < timeout]. *)
Theorem poll_request_count (fuel : nat) (w : World) r w' :
  (forall m, 0 <= latency env m) ->
  run_poll fuel w = Some (r, w') ->
  (requests_made w <= requests_made w')%nat
  /\ (requests_made w' = requests_made w
      \/ (Z.of_nat (requests_made w' - requests_made w) - 1) * interval < timeout).
Proof.
  intros Hl Hrun. unfold poll_for_emails in Hrun.
  destruct (while_shape _ _ _ _ _ _ _ _ _ _ _ Hrun) as (k & Hbefore & Hlast).
  destruct Hlast as [(_ & -> & _) | (_ & -> & Ht)].
  - rewrite requests_made_rounds. split; [lia|].
    destruct k as [|k]; [left; lia | right].
    specialize (Hbefore k ltac:(lia)).
    pose proof (elapsed_at_least env interval k (requests_made w) Hl).
    replace (requests_made w + S k - requests_made w)%nat with (S k) by lia.
    rewrite Nat2Z.inj_succ. lia.
  - rewrite requests_made_after_request, requests_made_rounds. split; [lia|]. right.
    pose proof (elapsed_at_least env interval k (requests_made w) Hl).
    replace (S (requests_made w + k) - requests_made w)%nat with (S k) by lia.
    rewrite Nat2Z.inj_succ. lia.
Qed.

(** X16. A listing whose [total] is not a number (null, a string, a list
    or an object) cannot be compared with [initial_count]: the poll
    raises [TypeError] right after the request that brought it. *)
Theorem poll_unordered_total (fuel : nat) (w : World) (page : PaginatedEmailList.t) :
  0 < timeout ->
  listing env self address (requests_made w) = Ok page ->
  unordered (PaginatedEmailList.total page) ->
  run_poll (S fuel) w = Some (Raise TypeError, ended_by_request w).
Proof.
  intros Ht Hpage Hun. unfold poll_for_emails; cbn [while].
  rewrite pass_checks by lia. rewrite Hpage. unfold new_mail.
  destruct Hun as [-> | [[s ->] | [[l ->] | [d ->]]]]; reflexivity.
Qed.

End PollingRuns.

(** X13, on an example. *)
Lemma poll_without_time_witness :
  poll_for_emails refusing 1 example_client "a@b.c" 0 5 0 fresh = Some (Ok None, fresh).
Proof. apply poll_without_time. lia. Defined.

(** X14, on an example: the poll of [late_mail_box] ends with its third
    request. *)
Lemma poll_run_shape_witness :
  exists k,
    (forall j, (j < k)%nat -> elapsed late_mail_box 5 j (requests_made fresh) < 60)
    /\ ((Ok (Some example_summary) = Ok None
         /\ after_request late_mail_box (poll_request example_client "a@b.c") 30
              (after_rounds late_mail_box example_client "a@b.c" 5 2 fresh)
            = after_rounds late_mail_box example_client "a@b.c" 5 k fresh
         /\ 60 <= elapsed late_mail_box 5 k (requests_made fresh)
         /\ requests_made
              (after_request late_mail_box (poll_request example_client "a@b.c") 30
                 (after_rounds late_mail_box example_client "a@b.c" 5 2 fresh))
            = (requests_made fresh + k)%nat)
        \/ (Ok (Some example_summary) <> Ok None
            /\ after_request late_mail_box (poll_request example_client "a@b.c") 30
                 (after_rounds late_mail_box example_client "a@b.c" 5 2 fresh)
               = after_request late_mail_box (poll_request example_client "a@b.c") 30
                   (after_rounds late_mail_box example_client "a@b.c" 5 k fresh)
            /\ elapsed late_mail_box 5 k (requests_made fresh) < 60
            /\ requests_made
                 (after_request late_mail_box (poll_request example_client "a@b.c") 30
                    (after_rounds late_mail_box example_client "a@b.c" 5 2 fresh))
               = (requests_made fresh + k + 1)%nat)).
Proof.
  apply (poll_run_shape late_mail_box example_client "a@b.c" 60 5 0 5 fresh).
  reflexivity.
Defined.

(** X15, on an example: two requests in a poll of ten ticks, one every
    five. *)
Lemma poll_request_count_witness :
  (requests_made fresh
   <= requests_made (after_rounds late_mail_box example_client "a@b.c" 5 2 fresh))%nat
  /\ (requests_made (after_rounds late_mail_box example_client "a@b.c" 5 2 fresh)
      = requests_made fresh
      \/ (Z.of_nat (requests_made (after_rounds late_mail_box example_client "a@b.c" 5 2 fresh)
                    - requests_made fresh) - 1) * 5 < 10).
Proof.
  apply (poll_request_count late_mail_box example_client "a@b.c" 10 5 0 5 fresh (Ok None)).
  - intro m. cbn. lia.
  - reflexivity.
Defined.

(** X16, on an example: [total] is null. *)
Lemma poll_unordered_total_witness :
  poll_for_emails null_total_box 1 example_client "a@b.c" 60 5 0 fresh
  = Some (Raise TypeError,
          after_request null_total_box (poll_request example_client "a@b.c") 30 fresh).
Proof.
  apply (poll_unordered_total null_total_box example_client "a@b.c" 60 5 0 0 fresh
           (PaginatedEmailList.mk [] PNone PNone)).
  - lia.
  - reflexivity.
  - left. reflexivity.
Defined.

(** ** Timestamps without a [Z] *)

Lemma replace_absent (old : ascii) (new s : string) :
  char_in old s = false -> replace old new s = s.
Proof.
  unfold char_in. induction s as [|c s IH]; [reflexivity|].
  cbn [list_ascii_of_string existsb replace]. intros H.
  apply orb_false_elim in H as [Hc Hs].
  rewrite Ascii.eqb_sym, Hc. now rewrite IH.
Qed.

(** X17. Only a [Z] is normalised.  A timestamp without [Z] is parsed as
    it stands, so an ISO-8601 date and time with no offset comes out
    naive, with [tzinfo] [None]; and a [Z] suffix is read exactly as the
    suffix [+00:00] is. *)
Theorem timestamp_without_Z :
  (forall s, char_in "Z" s = false -> received_at_of (PStr s) = fromisoformat s)
  /\ (forall spec dt,
         check_fields dt = Ok dt ->
         tzinfo dt = None ->
         representable spec (microsecond dt) = true ->
         received_at_of (PStr (isoformat spec dt)) = Ok dt)
  /\ (forall body,
         char_in "Z" body = false ->
         received_at_of (PStr (body ++ "Z")) = received_at_of (PStr (body ++ "+00:00"))).
Proof.
  assert (Hplain : forall s, char_in "Z" s = false ->
                             received_at_of (PStr s) = fromisoformat s).
  { intros s Hs. unfold received_at_of; cbn [replace_Z rbind].
    now rewrite replace_absent. }
  split; [exact Hplain|]. split.
  - intros spec dt Hok Htz Hex.
    rewrite Hplain by now apply isoformat_no_Z.
    now apply fromisoformat_isoformat.
  - intros body Hb.
    rewrite (Hplain (body ++ "+00:00")) by (rewrite char_in_app, Hb; reflexivity).
    unfold received_at_of; cbn [replace_Z rbind].
    now rewrite replace_suffix.
Qed.

(** X17, on an example: no offset, no time zone. *)
Lemma timestamp_without_Z_witness :
  received_at_of (PStr "2024-01-15T10:30:00")
  = Ok (mk_datetime 2024 1 15 10 30 0 0 None).
Proof.
  exact (proj1 (proj2 timestamp_without_Z) Seconds (mk_datetime 2024 1 15 10 30 0 0 None)
           eq_refl eq_refl eq_refl).
Defined.

Section BadTimestamps.

Variable env : Env.
Variable self : VanishClient.


End BadTimestamps.


(** ** Fields and URLs *)

(** Reading a required key: the lookup found it, or the mapping raised. *)
Ltac read_key d key :=
  destruct (lookup key d) eqn:?; cbn [rbind]; [|intros E; inversion E].

(** X19. The mappings rename and copy, nothing else.  A summary that
    comes out of a listing item holds the item's [id], [from] (as
    [sender]), [subject], [textPreview] (as [text_preview]) and
    [hasAttachments] as they are, and the parsed [receivedAt]; an
    attachment holds the item's [id], [name], [type] and [size]; a mail
    holds [id], [from], [to], [subject], [html], [text] and
    [hasAttachments] as they are. *)
Theorem mappings_copy_fields :
  (forall e s,
      summary_of (PDict e) = Ok s ->
      lookup "id" e = Some (EmailSummary.id s)
      /\ lookup "from" e = Some (EmailSummary.sender s)
      /\ lookup "subject" e = Some (EmailSummary.subject s)
      /\ lookup "textPreview" e = Some (EmailSummary.text_preview s)
      /\ lookup "hasAttachments" e = Some (EmailSummary.has_attachments s)
      /\ exists v, lookup "receivedAt" e = Some v
                   /\ received_at_of v = Ok (EmailSummary.received_at s))
  /\ (forall a m,
         attachment_of (PDict a) = Ok m ->
         lookup "id" a = Some (AttachmentMeta.id m)
         /\ lookup "name" a = Some (AttachmentMeta.name m)
         /\ lookup "type" a = Some (AttachmentMeta.type m)
         /\ lookup "size" a = Some (AttachmentMeta.size m))
  /\ (forall d m,
         get_email_result (PDict d) = Ok m ->
         lookup "id" d = Some (EmailDetail.id m)
         /\ lookup "from" d = Some (EmailDetail.sender m)
         /\ lookup "to" d = Some (EmailDetail.to m)
         /\ lookup "subject" d = Some (EmailDetail.subject m)
         /\ lookup "html" d = Some (EmailDetail.html m)
         /\ lookup "text" d = Some (EmailDetail.text m)
         /\ lookup "hasAttachments" d = Some (EmailDetail.has_attachments m)).
Proof.
  split; [|split].
  - intros e s. unfold summary_of; cbn [getitem].
    read_key e "id". read_key e "from". read_key e "subject".
    read_key e "textPreview". read_key e "receivedAt".
    destruct (received_at_of _) eqn:Hr; cbn [rbind]; [|intros E; inversion E].
    read_key e "hasAttachments".
    intros [= <-]. cbn. repeat split. eexists. split; [reflexivity | exact Hr].
  - intros a m. unfold attachment_of; cbn [getitem].
    read_key a "id". read_key a "name". read_key a "type". read_key a "size".
    intros [= <-]. cbn. repeat split.
  - intros d m. unfold get_email_result; cbn [get getitem].
    destruct (lookup "attachments" d); cbn [rbind];
      (destruct (iter _); cbn [rbind]; [|intros E; inversion E]);
      (destruct (comprehension attachment_of _); cbn [rbind]; [|intros E; inversion E]);
      read_key d "id"; read_key d "from"; read_key d "to"; read_key d "subject";
      read_key d "html"; read_key d "text"; read_key d "receivedAt";
      (destruct (received_at_of _); cbn [rbind]; [|intros E; inversion E]);
      read_key d "hasAttachments";
      intros [= <-]; cbn; repeat split.
Qed.

(** X19, on an example: the mail of [example_mail]. *)
Lemma mappings_copy_fields_witness :
  lookup "from" [("id", PStr "m1"); ("from", PStr "alice@example.com"); ("subject", PStr "Hi");
                 ("textPreview", PStr "Hello"); ("receivedAt", PStr "2024-01-15T10:30:00Z");
                 ("hasAttachments", PBool false)]
  = Some (EmailSummary.sender example_summary).
Proof.
  refine (proj1 (proj2 (proj1 mappings_copy_fields _ example_summary _))).
  reflexivity.
Defined.

Lemma urlencode_not_empty (kv : string * qval) (rest : list (string * qval)) :
  urlencode (kv :: rest) <> "".
Proof.
  unfold urlencode; cbn [map join].
  destruct (quote_plus (fst kv)) as [|c q]; destruct (map _ rest); cbn; discriminate.
Qed.

Section Urls.

Variable env : Env.
Variable self : VanishClient.

(** X20. The URL of a request is the base URL and the path; the
    parameters that are not [None] follow after a [?], encoded, and when
    every parameter is [None] there is no [?] at all.  [get_domains]
    asks for [/domains]. *)
Theorem request_url_parameters (path : string) (params : list (string * option qval))
    (w : World) :
  (present params = [] -> request_url self path params = base_url self ++ path)
  /\ (present params <> [] ->
      request_url self path params
      = base_url self ++ path ++ "?" ++ urlencode (present params))
  /\ urls (snd (get_domains env self w)) = List.app (urls w) [base_url self ++ "/domains"].
Proof.
  split; [|split].
  - intros H. unfold request_url. rewrite H. now destruct params.
  - intros H. unfold request_url. destruct params as [|p params]; [now destruct H|].
    destruct (present (p :: params)) as [|kv rest]; [now destruct H|].
    pose proof (urlencode_not_empty kv rest) as Hne.
    destruct (urlencode (kv :: rest)); [now destruct Hne|].
    now rewrite str_assoc.
  - rewrite get_domains_run; cbn [snd]. now rewrite urls_after_request.
Qed.

End Urls.

(** X20, on an example: a cursor that is [None] and nothing else. *)
Lemma request_url_parameters_witness :
  request_url example_client "/mailbox/a%40b.c" [("cursor", None)]
  = "https://api.vanish.host/mailbox/a%40b.c".
Proof.
  refine (proj1 (request_url_parameters refusing example_client "/mailbox/a%40b.c"
                   [("cursor", None)] fresh) _).
  reflexivity.
Defined.

(** ** Polling at the edges *)

Section PollingEdges.

Variable env : Env.
Variable self : VanishClient.
Variable address : string.

Abbreviation checked w :=
  (after_request env (poll_request self address) (timeout self) w).

Abbreviation request_wait := (timeout self).

Variables timeout interval initial_count : Z.

Abbreviation polled fuel w :=
  (poll_for_emails env fuel self address timeout interval initial_count w).

(** X21. A negative interval is found out late: the poll sends its
    first request all the same, and when that brings no new mail the
    sleep raises [ValueError]; the poll ends there, one request sent and
    no sleep done. *)
Theorem poll_negative_interval (fuel : nat) (w : World) :
  interval < 0 ->
  0 < timeout ->
  no_mail_yet env self address initial_count (requests_made w) ->
  polled (S fuel) w = Some (Raise ValueError, checked w)
  /\ trace (checked w)
     = (trace w ++ [Sent (clock w) (poll_request self address) request_wait])%list.
Proof.
  intros Hi Ht (page & Hpage & Hnew). split; [|reflexivity].
  unfold poll_for_emails; cbn [while].
  rewrite pass_checks by lia. rewrite Hpage, Hnew.
  destruct (Z.ltb_spec interval 0); [reflexivity | lia].
Qed.

(** X22. A page without items is never new mail, whatever count it
    claims: the test of the loop is false for it, and a mailbox that
    only ever answers with such pages is polled until the deadline,
    with [None] as the result. *)
Theorem poll_empty_pages (fuel : nat) (w : World) :
  0 <= interval ->
  (forall m, 0 < latency env m + interval) ->
  (forall n, exists page b,
        listing env self address n = Ok page
        /\ PaginatedEmailList.data page = []
        /\ gt (PaginatedEmailList.total page) initial_count = Ok b) ->
  (Z.to_nat timeout < fuel)%nat ->
  (forall n, no_mail_yet env self address initial_count n)
  /\ exists k,
      polled fuel w = Some (Ok None, after_rounds env self address interval k w)
      /\ timeout <= elapsed env interval k (requests_made w).
Proof.
  intros Hi Hl Hpages Hfuel.
  assert (Hno : forall n, no_mail_yet env self address initial_count n).
  { intros n. destruct (Hpages n) as (page & b & Hpage & Hdata & Hgt).
    exists page. split; [exact Hpage|].
    unfold new_mail. rewrite Hgt, Hdata; cbn [rbind]. now rewrite andb_false_r. }
  split; [exact Hno|].
  destruct (while_times_out env self address timeout interval initial_count
              (clock w) fuel w Hi Hl) as (k & Hrun & Hend & _).
  - intros j _. apply Hno.
  - replace (timeout - (clock w - clock w)) with timeout by lia. exact Hfuel.
  - exists k. split; [exact Hrun | lia].
Qed.

End PollingEdges.

(** X21, on an example: an interval of minus one. *)
Lemma poll_negative_interval_witness :
  poll_for_emails empty_box 1 example_client "a@b.c" 60 (-1) 0 fresh
  = Some (Raise ValueError,
          after_request empty_box (poll_request example_client "a@b.c") 30 fresh).
Proof.
  refine (proj1 (poll_negative_interval empty_box example_client "a@b.c" 60 (-1) 0 0 fresh
                   _ _ _)).
  - lia.
  - lia.
  - eexists. split; reflexivity.
Defined.

(** X22, on an example: a count of seven and nothing to show. *)
Lemma poll_empty_pages_witness :
  exists k,
    poll_for_emails phantom_box 11 example_client "a@b.c" 10 5 0 fresh
    = Some (Ok None, after_rounds phantom_box example_client "a@b.c" 5 k fresh)
    /\ 10 <= elapsed phantom_box 5 k (requests_made fresh).
Proof.
  refine (proj2 (poll_empty_pages phantom_box example_client "a@b.c" 10 5 0 11 fresh _ _ _ _)).
  - lia.
  - intros m. cbn. lia.
  - intros n. eexists. exists true. repeat split.
  - cbn. lia.
Defined.

(** ** Deleting *)

Section Deleting.

Variable env : Env.
Variable self : VanishClient.

(** X23. [delete_email] and [delete_mailbox] hand back what the response
    holds under [success] and under [deleted], whatever it is, not only
    a flag or a count; and when the response is JSON but not an object
    they raise [AttributeError]. *)
Theorem delete_results (w : World) (content : string) (hdrs : headers) (v : pyval) :
  answers env w (Response content hdrs (Loaded v)) ->
  (forall d x email_id,
      v = PDict d ->
      lookup "success" d = Some x ->
      fst (delete_email env self email_id w) = Ok x)
  /\ (forall d x address,
         v = PDict d ->
         lookup "deleted" d = Some x ->
         fst (delete_mailbox env self address w) = Ok x)
  /\ ((forall d, v <> PDict d) ->
      (forall email_id, fst (delete_email env self email_id w) = Raise AttributeError)
      /\ (forall address, fst (delete_mailbox env self address w) = Raise AttributeError)).
Proof.
  intros Hans. split; [|split].
  - intros d x email_id -> Hx.
    rewrite delete_email_run; cbn [fst]. rewrite Hans.
    cbn [handle rbind json_of get]. now rewrite Hx.
  - intros d x address -> Hx.
    rewrite delete_mailbox_run; cbn [fst]. rewrite Hans.
    cbn [handle rbind json_of get]. now rewrite Hx.
  - intros Hv. split.
    + intros email_id. rewrite delete_email_run; cbn [fst]. rewrite Hans.
      cbn [handle rbind json_of]. destruct v; try reflexivity. now destruct (Hv d).
    + intros address. rewrite delete_mailbox_run; cbn [fst]. rewrite Hans.
      cbn [handle rbind json_of]. destruct v; try reflexivity. now destruct (Hv d).
Qed.

End Deleting.

(** X23, on an example: a [success] that is a string. *)
Lemma delete_results_witness :
  fst (delete_email chatty_server example_client "m1" fresh) = Ok (PStr "yes").
Proof.
  refine (proj1 (delete_results chatty_server example_client fresh "" [] _ _) _ _ "m1" _ _).
  - intro req. reflexivity.
  - reflexivity.
  - reflexivity.
Defined.

(** ** Making a client *)

Lemma rstrip_app_slash (s : string) : rstrip "/" (s ++ "/") = rstrip "/" s.
Proof.
  induction s as [|c s IH]; [reflexivity|].
  cbn [append rstrip]. now rewrite IH.
Qed.

Lemma rstrip_app_slashes (n : nat) (s : string) : rstrip "/" (s ++ slashes n) = rstrip "/" s.
Proof.
  revert s; induction n as [|n IH]; intros s; cbn [slashes]; [now rewrite str_nil_r|].
  change (String "/" (slashes n)) with ("/" ++ slashes n).
  now rewrite <- str_assoc, IH, rstrip_app_slash.
Qed.

(** X24. [create_client] makes a client that waits thirty seconds for
    each answer, and slashes at the end of the base URL make no
    difference: the client is the same one, and so is every request it
    sends. *)
Theorem create_client_trailing_slashes (url0 : string) (key : option string) (n : nat) :
  create_client (url0 ++ slashes n) key = create_client url0 key
  /\ timeout (create_client url0 key) = 30
  /\ api_key (create_client url0 key) = key
  /\ (forall t, init (url0 ++ slashes n) key t = init url0 key t)
  /\ (forall env w,
         trace (snd (get_domains env (create_client (url0 ++ slashes n) key) w))
         = (trace w ++ [Sent (clock w)
                          (mk_request (rstrip "/" url0 ++ "/domains") None
                                      (expected_headers key) "GET") 30])%list).
Proof.
  assert (H : forall t, init (url0 ++ slashes n) key t = init url0 key t).
  { intros t. unfold init. now rewrite rstrip_app_slashes. }
  repeat split; try apply H.
  intros env w. unfold create_client. rewrite H, get_domains_run; cbn [snd].
  unfold after_request, build_request; cbn [trace].
  now rewrite request_headers_expected.
Qed.
